(** * PeerJS-Network: src/ts/Network.ts *)

(** A shallow embedding of [src/ts/Network.ts]: the [Network] aggregate and
    its [NetworkConnection]s (module [Network]) and the change-tracking
    proxies [proxyfy]/[unproxyfy] with their shared [WeakMap] cache (module
    [Proxy]). Every handler is a function on an explicit state; JavaScript
    [Map]s are insertion-ordered association lists, arrays are lists. *)

From Stdlib Require Import List String Bool ZArith Lia.
Import ListNotations.
Set Warnings "-register-all".
Open Scope string_scope.
Open Scope list_scope.

(** ** JavaScript [Map] as an insertion-ordered association list *)
Module JsMap.
Section Ops.
Context {K V : Type} (eqk : K -> K -> bool).

(** [m.get(k)] *)
Fixpoint get (k : K) (m : list (K * V)) : option V :=
  match m with
  | [] => None
  | (k', v) :: r => if eqk k k' then Some v else get k r
  end.

(** [m.has(k)] *)
Definition has (k : K) (m : list (K * V)) : bool :=
  match get k m with Some _ => true | None => false end.

(** [m.set(k, v)]: an existing key keeps its position, a new key goes last. *)
Fixpoint set (k : K) (v : V) (m : list (K * V)) : list (K * V) :=
  match m with
  | [] => [(k, v)]
  | (k', v') :: r => if eqk k k' then (k', v) :: r else (k', v') :: set k v r
  end.

(** [m.delete(k)] (keys are unique in a map built with [set]). *)
Definition delete (k : K) (m : list (K * V)) : list (K * V) :=
  filter (fun kv => negb (eqk k (fst kv))) m.

End Ops.
End JsMap.

(** ** Array helpers for [whitelist] and [blacklist] *)

(** [a.includes(x)] *)
Definition includes (x : string) (l : list string) : bool :=
  existsb (String.eqb x) l.

(** [let i = a.indexOf(x); if (i !== -1) a.splice(i, 1)] *)
Fixpoint remove_first (x : string) (l : list string) : list string :=
  match l with
  | [] => []
  | y :: r => if String.eqb x y then r else y :: remove_first x r
  end.

(** ** JSON data held by synced objects *)

(** The plain values behind the synced proxies: what [JSON.parse] builds,
    plus [undefined], the result of reading a missing property. [JObj] is a
    plain (non-array) object with its own properties, whose prototype is
    [Object.prototype]; arrays, and proxies stored inside a tree, are not
    represented (the heap of module [Proxy] has the latter). *)
Inductive Json :=
| JUndef
| JNull
| JBool (b : bool)
| JNum (z : Z)
| JStr (s : string)
| JObj (props : list (string * Json)).

(** The property names of [Object.prototype], which every plain object
    inherits. *)
Definition object_prototype_keys : list string :=
  ["constructor"; "__defineGetter__"; "__defineSetter__"; "hasOwnProperty";
   "__lookupGetter__"; "__lookupSetter__"; "isPrototypeOf"; "propertyIsEnumerable";
   "toString"; "valueOf"; "__proto__"; "toLocaleString"].

(** [object[k]] on a plain value: [null]/[undefined] raise a [TypeError]
    (modelled by [None]), a primitive has no own data properties. Only own
    properties are read: a key of [Object.prototype] (see
    [object_prototype_keys]) that the object does not own reads as
    [undefined] here. *)
Definition js_get (o : Json) (k : string) : option Json :=
  match o with
  | JUndef | JNull => None
  | JObj ps => Some (match JsMap.get String.eqb k ps with Some v => v | None => JUndef end)
  | _ => Some JUndef
  end.

(** [object[k] = v] in strict mode (class bodies are strict): only an object
    takes the property; on anything else the assignment raises. The key
    becomes an own data property; the [__proto__] setter of
    [Object.prototype] is not modelled. *)
Definition js_set (o : Json) (k : string) (v : Json) : option Json :=
  match o with
  | JObj ps => Some (JObj (JsMap.set String.eqb k v ps))
  | _ => None
  end.

(** The CHANGESYNC walk of [NetworkConnection.#data]:
    [while (path.length > 1) object = object[path.shift()];
     object[path.pop()] = value]. The descent does not write, so the
    in-place update of the last object is the rebuilt tree; an empty path
    pops [undefined], i.e. the key "undefined". *)
Fixpoint assign_path (o : Json) (path : list string) (v : Json) : option Json :=
  match path with
  | [] => js_set o "undefined" v
  | k :: rest =>
      match rest with
      | [] => js_set o k v
      | _ :: _ =>
          match js_get o k with
          | None => None
          | Some child =>
              match assign_path child rest v with
              | None => None
              | Some child' => js_set o k child'
              end
          end
      end
  end.


Module Network.

(** A [NetworkConnection] object: [cid] is its identity (and the handle of
    its interval), [cpeer] is [this.id] ([connection.peer]), [creceiver] is
    [this.receiver]. [cadmitted] is ghost state: whether the object passed
    the admission check of [#open]. *)
Record Conn := mkConn { cid : nat; cpeer : string; creceiver : bool; cadmitted : bool }.

(** Data on the wire: string sentinels, the three sync records and any other
    application payload. The serialized [object] of NEWSYNC is carried as the
    parsed value ([JSON.parse (JSON.stringify v)] is [v] on JSON data). *)
Inductive Msg :=
| MStr (s : string)
| MNewSync (uuid : string) (object : Json)
| MChangeSync (uuid : string) (path : list string) (value : Json)
| MUnsync (uuid : string)
| MApp (payload : Json).

Inductive NetworkEvent :=
| PEER_OPENED | UNAVAILABLE_ID | INVALID_ID | PEER_CONNECTION | PEER_CLOSED
| PEER_DISCONNECT | PEER_ERROR
| HOST_P2P_OPENED | HOST_P2P_CLOSED | HOST_P2P_RECEIVED_DATA | HOST_P2P_SYNCED_DATA
| HOST_P2P_SYNCED_DATA_CHANGED | HOST_P2P_UNSYNCED_DATA
| CLIENT_P2P_OPENED | CLIENT_P2P_CLOSED | CLIENT_P2P_RECEIVED_DATA
| CLIENT_P2P_CONFIRMED_CONNECTION | CLIENT_P2P_SYNCED_DATA
| CLIENT_P2P_SYNCED_DATA_CHANGED | CLIENT_P2P_UNSYNCED_DATA
| HOSTING_START | HOSTING_END.

Definition event_eqb (a b : NetworkEvent) : bool :=
  match a, b with
  | PEER_OPENED, PEER_OPENED | UNAVAILABLE_ID, UNAVAILABLE_ID | INVALID_ID, INVALID_ID
  | PEER_CONNECTION, PEER_CONNECTION | PEER_CLOSED, PEER_CLOSED
  | PEER_DISCONNECT, PEER_DISCONNECT | PEER_ERROR, PEER_ERROR
  | HOST_P2P_OPENED, HOST_P2P_OPENED | HOST_P2P_CLOSED, HOST_P2P_CLOSED
  | HOST_P2P_RECEIVED_DATA, HOST_P2P_RECEIVED_DATA
  | HOST_P2P_SYNCED_DATA, HOST_P2P_SYNCED_DATA
  | HOST_P2P_SYNCED_DATA_CHANGED, HOST_P2P_SYNCED_DATA_CHANGED
  | HOST_P2P_UNSYNCED_DATA, HOST_P2P_UNSYNCED_DATA
  | CLIENT_P2P_OPENED, CLIENT_P2P_OPENED | CLIENT_P2P_CLOSED, CLIENT_P2P_CLOSED
  | CLIENT_P2P_RECEIVED_DATA, CLIENT_P2P_RECEIVED_DATA
  | CLIENT_P2P_CONFIRMED_CONNECTION, CLIENT_P2P_CONFIRMED_CONNECTION
  | CLIENT_P2P_SYNCED_DATA, CLIENT_P2P_SYNCED_DATA
  | CLIENT_P2P_SYNCED_DATA_CHANGED, CLIENT_P2P_SYNCED_DATA_CHANGED
  | CLIENT_P2P_UNSYNCED_DATA, CLIENT_P2P_UNSYNCED_DATA
  | HOSTING_START, HOSTING_START | HOSTING_END, HOSTING_END => true
  | _, _ => false
  end.

(** Arguments a callback is called with. *)
Inductive CbArgs :=
| ANone
| AData (m : Msg)
| AUuidObj (uuid : string) (object : Json)
| AChange (uuid : string) (path : list string) (value : Json)
| AObj (object : Json)
| AConn (c : Conn).

(** Fields of a [Network] instance, plus the per-connection state the
    [NetworkConnection] objects hold ([timers]: [this.timer.begin];
    [intervals]: live [setInterval] handles; [graceq]: pending 250 ms
    [setTimeout]s of [close()]), the data sent on each connection and the
    log of callback invocations. *)
Record Net := mkNet {
  peer : bool;
  id : option string;
  isHosting : bool;
  maxClient : nat;
  acceptConnections : bool;
  useWhitelist : bool;
  whitelist : list string;
  blacklist : list string;
  connections : list (string * Conn);
  callbacks : list (NetworkEvent * nat);
  syncedObjects : list (string * Json);
  timers : list (nat * Z);
  intervals : list nat;
  graceq : list nat;
  nextCid : nat;
  outbox : list (nat * Msg);
  fired : list (nat * NetworkEvent * CbArgs) }.

Definition upd_peer (f : bool -> bool) (n : Net) : Net :=
  mkNet (f (n.(peer))) n.(id) n.(isHosting) n.(maxClient) n.(acceptConnections) n.(useWhitelist) n.(whitelist) n.(blacklist) n.(connections) n.(callbacks) n.(syncedObjects) n.(timers) n.(intervals) n.(graceq) n.(nextCid) n.(outbox) n.(fired).
Definition upd_id (f : option string -> option string) (n : Net) : Net :=
  mkNet n.(peer) (f (n.(id))) n.(isHosting) n.(maxClient) n.(acceptConnections) n.(useWhitelist) n.(whitelist) n.(blacklist) n.(connections) n.(callbacks) n.(syncedObjects) n.(timers) n.(intervals) n.(graceq) n.(nextCid) n.(outbox) n.(fired).
Definition upd_isHosting (f : bool -> bool) (n : Net) : Net :=
  mkNet n.(peer) n.(id) (f (n.(isHosting))) n.(maxClient) n.(acceptConnections) n.(useWhitelist) n.(whitelist) n.(blacklist) n.(connections) n.(callbacks) n.(syncedObjects) n.(timers) n.(intervals) n.(graceq) n.(nextCid) n.(outbox) n.(fired).
Definition upd_maxClient (f : nat -> nat) (n : Net) : Net :=
  mkNet n.(peer) n.(id) n.(isHosting) (f (n.(maxClient))) n.(acceptConnections) n.(useWhitelist) n.(whitelist) n.(blacklist) n.(connections) n.(callbacks) n.(syncedObjects) n.(timers) n.(intervals) n.(graceq) n.(nextCid) n.(outbox) n.(fired).
Definition upd_acceptConnections (f : bool -> bool) (n : Net) : Net :=
  mkNet n.(peer) n.(id) n.(isHosting) n.(maxClient) (f (n.(acceptConnections))) n.(useWhitelist) n.(whitelist) n.(blacklist) n.(connections) n.(callbacks) n.(syncedObjects) n.(timers) n.(intervals) n.(graceq) n.(nextCid) n.(outbox) n.(fired).
Definition upd_useWhitelist (f : bool -> bool) (n : Net) : Net :=
  mkNet n.(peer) n.(id) n.(isHosting) n.(maxClient) n.(acceptConnections) (f (n.(useWhitelist))) n.(whitelist) n.(blacklist) n.(connections) n.(callbacks) n.(syncedObjects) n.(timers) n.(intervals) n.(graceq) n.(nextCid) n.(outbox) n.(fired).
Definition upd_whitelist (f : list string -> list string) (n : Net) : Net :=
  mkNet n.(peer) n.(id) n.(isHosting) n.(maxClient) n.(acceptConnections) n.(useWhitelist) (f (n.(whitelist))) n.(blacklist) n.(connections) n.(callbacks) n.(syncedObjects) n.(timers) n.(intervals) n.(graceq) n.(nextCid) n.(outbox) n.(fired).
Definition upd_blacklist (f : list string -> list string) (n : Net) : Net :=
  mkNet n.(peer) n.(id) n.(isHosting) n.(maxClient) n.(acceptConnections) n.(useWhitelist) n.(whitelist) (f (n.(blacklist))) n.(connections) n.(callbacks) n.(syncedObjects) n.(timers) n.(intervals) n.(graceq) n.(nextCid) n.(outbox) n.(fired).
Definition upd_connections (f : list (string * Conn) -> list (string * Conn)) (n : Net) : Net :=
  mkNet n.(peer) n.(id) n.(isHosting) n.(maxClient) n.(acceptConnections) n.(useWhitelist) n.(whitelist) n.(blacklist) (f (n.(connections))) n.(callbacks) n.(syncedObjects) n.(timers) n.(intervals) n.(graceq) n.(nextCid) n.(outbox) n.(fired).
Definition upd_callbacks (f : list (NetworkEvent * nat) -> list (NetworkEvent * nat)) (n : Net) : Net :=
  mkNet n.(peer) n.(id) n.(isHosting) n.(maxClient) n.(acceptConnections) n.(useWhitelist) n.(whitelist) n.(blacklist) n.(connections) (f (n.(callbacks))) n.(syncedObjects) n.(timers) n.(intervals) n.(graceq) n.(nextCid) n.(outbox) n.(fired).
Definition upd_syncedObjects (f : list (string * Json) -> list (string * Json)) (n : Net) : Net :=
  mkNet n.(peer) n.(id) n.(isHosting) n.(maxClient) n.(acceptConnections) n.(useWhitelist) n.(whitelist) n.(blacklist) n.(connections) n.(callbacks) (f (n.(syncedObjects))) n.(timers) n.(intervals) n.(graceq) n.(nextCid) n.(outbox) n.(fired).
Definition upd_timers (f : list (nat * Z) -> list (nat * Z)) (n : Net) : Net :=
  mkNet n.(peer) n.(id) n.(isHosting) n.(maxClient) n.(acceptConnections) n.(useWhitelist) n.(whitelist) n.(blacklist) n.(connections) n.(callbacks) n.(syncedObjects) (f (n.(timers))) n.(intervals) n.(graceq) n.(nextCid) n.(outbox) n.(fired).
Definition upd_intervals (f : list nat -> list nat) (n : Net) : Net :=
  mkNet n.(peer) n.(id) n.(isHosting) n.(maxClient) n.(acceptConnections) n.(useWhitelist) n.(whitelist) n.(blacklist) n.(connections) n.(callbacks) n.(syncedObjects) n.(timers) (f (n.(intervals))) n.(graceq) n.(nextCid) n.(outbox) n.(fired).
Definition upd_graceq (f : list nat -> list nat) (n : Net) : Net :=
  mkNet n.(peer) n.(id) n.(isHosting) n.(maxClient) n.(acceptConnections) n.(useWhitelist) n.(whitelist) n.(blacklist) n.(connections) n.(callbacks) n.(syncedObjects) n.(timers) n.(intervals) (f (n.(graceq))) n.(nextCid) n.(outbox) n.(fired).
Definition upd_nextCid (f : nat -> nat) (n : Net) : Net :=
  mkNet n.(peer) n.(id) n.(isHosting) n.(maxClient) n.(acceptConnections) n.(useWhitelist) n.(whitelist) n.(blacklist) n.(connections) n.(callbacks) n.(syncedObjects) n.(timers) n.(intervals) n.(graceq) (f (n.(nextCid))) n.(outbox) n.(fired).
Definition upd_outbox (f : list (nat * Msg) -> list (nat * Msg)) (n : Net) : Net :=
  mkNet n.(peer) n.(id) n.(isHosting) n.(maxClient) n.(acceptConnections) n.(useWhitelist) n.(whitelist) n.(blacklist) n.(connections) n.(callbacks) n.(syncedObjects) n.(timers) n.(intervals) n.(graceq) n.(nextCid) (f (n.(outbox))) n.(fired).
Definition upd_fired (f : list (nat * NetworkEvent * CbArgs) -> list (nat * NetworkEvent * CbArgs)) (n : Net) : Net :=
  mkNet n.(peer) n.(id) n.(isHosting) n.(maxClient) n.(acceptConnections) n.(useWhitelist) n.(whitelist) n.(blacklist) n.(connections) n.(callbacks) n.(syncedObjects) n.(timers) n.(intervals) n.(graceq) n.(nextCid) n.(outbox) (f (n.(fired))).

(** Outcome of a method: its final state, or the exception it raises with
    the state reached when it is raised (an [async] method rejects its
    promise instead). *)
Inductive Outcome :=
| Ret (n : Net)
| Raise (e : string) (n : Net).

Definition get_conn (k : string) (m : list (string * Conn)) := JsMap.get String.eqb k m.
Definition get_obj (k : string) (m : list (string * Json)) := JsMap.get String.eqb k m.
Definition has_obj (k : string) (m : list (string * Json)) := JsMap.has String.eqb k m.

(** [callbacks.get(event) ?? []]: the handler ids registered for [event], in
    registration order ([on] appends). *)
Definition getCallbacks (ev : NetworkEvent) (n : Net) : list nat :=
  map snd (filter (fun eh => event_eqb (fst eh) ev) n.(callbacks)).

(** [on(event, callback)] *)
Definition on (ev : NetworkEvent) (h : nat) (n : Net) : Net :=
  upd_callbacks (fun l => l ++ [(ev, h)]) n.

(** [hasConnections()] and [isFull()] *)
Definition hasConnections (n : Net) : bool := negb (Nat.eqb (List.length n.(connections)) 0).
Definition isFull (n : Net) : bool := Nat.leb n.(maxClient) (List.length n.(connections)).

(** [this.connection.send(data)] on connection [c]. *)
Definition send (c : Conn) (m : Msg) (n : Net) : Net :=
  upd_outbox (fun o => o ++ [(c.(cid), m)]) n.

(** [sendTo], [sendToAll], [sendToAllExcept] *)
Definition sendTo (p : string) (m : Msg) (n : Net) : Net :=
  match get_conn p n.(connections) with Some c => send c m n | None => n end.

Definition sendToAll (m : Msg) (n : Net) : Net :=
  fold_left (fun acc kc => send (snd kc) m acc) n.(connections) n.

Definition sendToAllExcept (p : string) (m : Msg) (n : Net) : Net :=
  fold_left (fun acc kc => if String.eqb (fst kc) p then acc else send (snd kc) m acc)
    n.(connections) n.

(** [clean()]: [clearInterval(this.intervalID)] and
    [this.network.connections.delete(this.id)]. *)
Definition clean (c : Conn) (n : Net) : Net :=
  upd_connections (JsMap.delete String.eqb c.(cpeer))
    (upd_intervals (filter (fun i => negb (Nat.eqb i c.(cid)))) n).

(** [close()]: send [Network$CLOSE] and schedule [connection.close()] in 250 ms. *)
Definition close (c : Conn) (n : Net) : Net :=
  upd_graceq (fun g => g ++ [c.(cid)]) (send c (MStr "Network$CLOSE") n).

(** [cleanclose()] *)
Definition cleanclose (c : Conn) (n : Net) : Net := close c (clean c n).

(** [closeConnection(id)] and [closeAllConnections()] *)
Definition closeConnection (p : string) (n : Net) : Net :=
  match get_conn p n.(connections) with Some c => cleanclose c n | None => n end.

Definition closeAllConnections (n : Net) : Net :=
  fold_left (fun acc kc => cleanclose (snd kc) acc) n.(connections) n.

(** [allow], [deny], [ban], [unban] *)
Definition allow (p : string) (n : Net) : Net := upd_whitelist (fun w => w ++ [p]) n.

Definition deny (p : string) (n : Net) : Net :=
  let n1 := upd_whitelist (remove_first p) n in
  if n1.(useWhitelist) && n1.(isHosting) then closeConnection p n1 else n1.

Definition ban (p : string) (n : Net) : Net :=
  closeConnection p (upd_blacklist (fun b => b ++ [p]) n).

Definition unban (p : string) (n : Net) : Net := upd_blacklist (remove_first p) n.

(** [enableHosting(abortIfConnections)] / [disableHosting(abortIfConnections)];
    the returned [isHosting] is the field of the resulting state. *)
Definition enableHosting (abort : bool) (n : Net) : Net :=
  if negb n.(isHosting) then
    if negb (hasConnections n) || negb abort
    then closeAllConnections (upd_isHosting (fun _ => true) n)
    else n
  else n.

Definition disableHosting (abort : bool) (n : Net) : Net :=
  if n.(isHosting) then
    if negb (hasConnections n) || negb abort
    then upd_isHosting (fun _ => false) (closeAllConnections n)
    else n
  else n.

(** [new NetworkConnection(connection, receiver, network)] at time [now]:
    a fresh object with its [Timer] and its 1 s interval. *)
Definition newConn (p : string) (receiver : bool) (now : Z) (n : Net) : Conn * Net :=
  let c := mkConn n.(nextCid) p receiver false in
  (c, upd_nextCid S (upd_intervals (fun l => l ++ [c.(cid)])
        (upd_timers (JsMap.set Nat.eqb c.(cid) now) n))).

(** Reading and resetting the [Timer] of connection [c]. *)
Definition timer_begin (c : Conn) (n : Net) : Z :=
  match JsMap.get Nat.eqb c.(cid) n.(timers) with Some b => b | None => 0%Z end.

Definition timer_reset (c : Conn) (now : Z) (n : Net) : Net :=
  upd_timers (JsMap.set Nat.eqb c.(cid) now) n.

(** The admission test of [#open]. *)
Definition rejected (c : Conn) (n : Net) : bool :=
  negb n.(isHosting) || negb n.(acceptConnections) || isFull n ||
  includes c.(cpeer) n.(blacklist) ||
  (n.(useWhitelist) && negb (includes c.(cpeer) n.(whitelist))).

(** Ghost update: the object [c] (which the table may hold) passed admission. *)
Definition mark_admitted (c : Conn) (n : Net) : Net :=
  upd_connections (map (fun kc : string * Conn =>
    if Nat.eqb (snd kc).(cid) c.(cid)
    then (fst kc, mkConn (snd kc).(cid) (snd kc).(cpeer) (snd kc).(creceiver) true)
    else kc)) n.

Section Handlers.

(** What the registered callback with id [h] does to the state when it is
    awaited for [event] with [args]. *)
Variable eff : nat -> NetworkEvent -> CbArgs -> Net -> Net.

Definition log_call (h : nat) (ev : NetworkEvent) (a : CbArgs) (n : Net) : Net :=
  upd_fired (fun l => l ++ [(h, ev, a)]) n.

(** [for (let callback of this.getCallbacks(ev)) await callback.call(this, ...)] *)
Definition run_cbs (ev : NetworkEvent) (a : CbArgs) (n : Net) : Net :=
  fold_left (fun acc h => eff h ev a (log_call h ev a acc)) (getCallbacks ev n) n.

(** [peer.on('connection', conn => ...)] for an inbound connection from [p]. *)
Definition on_connection (p : string) (now : Z) (n : Net) : Net :=
  let (c, n1) := newConn p true now n in
  run_cbs PEER_CONNECTION (AConn c) (upd_connections (JsMap.set String.eqb p c) n1).

(** [connectTo(id)] *)
Definition connectTo (p : string) (now : Z) (n : Net) : Outcome :=
  if match n.(id) with Some i => String.eqb p i | None => false end
  then Raise "You can't connect to yourself" n
  else if negb n.(peer)
  then Raise "You can't connect to somebody without starting the Network and being connected to the signaling server" n
  else if n.(isHosting) then Raise "You can't connect to somebody while hosting" n
  else if hasConnections n then Raise "You can only connect to one peer at a time" n
  else
    let (c, n1) := newConn p false now n in
    Ret (upd_syncedObjects (fun _ => [])
           (upd_connections (JsMap.set String.eqb p c) n1)).

(** [syncObject(object)], with [uuid] the first [crypto.randomUUID()] not
    already a key of [syncedObjects] and [obj] the value
    [JSON.parse(JSON.stringify(object))] that [proxyfy] receives. *)
Definition syncObject (uuid : string) (obj : Json) (n : Net) : Outcome :=
  if negb n.(isHosting) && hasConnections n
  then Raise "Cannot sync object when not hosting and connected" n
  else
    match obj with
    | JObj _ =>
        let n1 := upd_syncedObjects (JsMap.set String.eqb uuid obj) n in
        let n2 := sendToAll (MNewSync uuid obj) n1 in
        Ret (run_cbs HOST_P2P_SYNCED_DATA (AUuidObj uuid obj) n2)
    | _ => Raise "TypeError" n (* new Proxy on a primitive or null *)
    end.

(** [unsync(uuid)] *)
Definition unsync (uuid : string) (n : Net) : Outcome :=
  if negb n.(isHosting) && hasConnections n
  then Raise "Cannot unsync object when not hosting and connected" n
  else match get_obj uuid n.(syncedObjects) with
       | None => Ret n
       | Some o =>
           let n1 := upd_syncedObjects (JsMap.delete String.eqb uuid) n in
           let n2 := sendToAll (MUnsync uuid) n1 in
           Ret (run_cbs HOST_P2P_UNSYNCED_DATA (AObj o) n2)
       end.

(** [#timeout()]: the interval callback, at time [now]. *)
Definition timeout (c : Conn) (now : Z) (n : Net) : Net :=
  if (6000 <? now - timer_begin c n)%Z then cleanclose c n
  else send c (MStr "Network$IAMHERE") n.

(** [#open()] *)
Definition open_ (c : Conn) (n : Net) : Net :=
  if c.(creceiver) then
    if rejected c n then cleanclose c n
    else
      let n1 := run_cbs HOST_P2P_OPENED ANone (mark_admitted c n) in
      let n2 := send c (MStr "Network$CONFIRM") n1 in
      fold_left (fun acc ue => sendTo c.(cpeer) (MNewSync (fst ue) (snd ue)) acc)
        n2.(syncedObjects) n2
  else run_cbs CLIENT_P2P_OPENED ANone n.

(** [#close()] *)
Definition close_ (c : Conn) (n : Net) : Net :=
  clean c (run_cbs (if c.(creceiver) then HOST_P2P_CLOSED else CLIENT_P2P_CLOSED) ANone n).

(** The last branch of [#data]: the role's "received data" callbacks. *)
Definition received (c : Conn) (m : Msg) (n : Net) : Net :=
  run_cbs (if c.(creceiver) then HOST_P2P_RECEIVED_DATA else CLIENT_P2P_RECEIVED_DATA)
    (AData m) n.

(** [#data(data)] after [this.timer.reset()]: the classification. *)
Definition classify (c : Conn) (m : Msg) (n : Net) : Outcome :=
  match m with
  | MStr s =>
      if String.eqb s "Network$CLOSE" then Ret (cleanclose c n)
      else if String.eqb s "Network$IAMHERE" then Ret n
      else if String.eqb s "Network$CONFIRM" && negb c.(creceiver)
      then Ret (run_cbs CLIENT_P2P_CONFIRMED_CONNECTION ANone n)
      else Ret (received c m n)
  | MNewSync u o =>
      if has_obj u n.(syncedObjects) then Ret n
      else
        match o with
        | JObj _ =>
            Ret (run_cbs CLIENT_P2P_SYNCED_DATA (AUuidObj u o)
                   (upd_syncedObjects (JsMap.set String.eqb u o) n))
        | _ => Raise "TypeError" n (* new Proxy on a primitive or null *)
        end
  | MChangeSync u path v =>
      (* unproxyfy(undefined) is null *)
      let object := match get_obj u n.(syncedObjects) with Some o => o | None => JNull end in
      match assign_path object path v with
      | None => Raise "TypeError" n
      | Some o' =>
          (* the write goes to the plain object, in place *)
          let n1 := upd_syncedObjects (JsMap.set String.eqb u o') n in
          if c.(creceiver)
          then Ret (run_cbs HOST_P2P_SYNCED_DATA_CHANGED (AChange u path v)
                      (sendToAllExcept c.(cpeer) m n1))
          else Ret (run_cbs CLIENT_P2P_SYNCED_DATA_CHANGED (AChange u path v) n1)
      end
  | MUnsync u =>
      match get_obj u n.(syncedObjects) with
      | None => Ret n
      | Some o =>
          Ret (run_cbs CLIENT_P2P_UNSYNCED_DATA (AObj o)
                 (upd_syncedObjects (JsMap.delete String.eqb u) n))
      end
  | MApp JNull => Raise "TypeError" n (* typeof null is 'object': null.evt *)
  | MApp _ => Ret (received c m n)
  end.

(** [#data(data)] delivered at time [now]. *)
Definition data (c : Conn) (m : Msg) (now : Z) (n : Net) : Outcome :=
  classify c m (timer_reset c now n).

End Handlers.

(** ** Traces of transport events and public calls *)

(** The state a [Network] starts in ([new Network()]), with [maxClient]
    set to [mc] before anything else happens. *)
Definition init_net (mc : nat) : Net :=
  mkNet false None false mc true true [] [] [] [] [] [] [] [] 0 [] [].

(** Callbacks that do nothing to the state (only their call is logged). *)
Definition no_effect : nat -> NetworkEvent -> CbArgs -> Net -> Net := fun _ _ _ n => n.

Definition state_of (o : Outcome) : Net := match o with Ret n | Raise _ n => n end.

(** One thing that can happen to a [Network]: a transport event delivered to
    the [Network] or to one of its [NetworkConnection] objects, a timer
    firing, or a call of a public method (or field assignment). *)
Inductive Ev :=
| EvPeerOpen (i : string)
| EvInbound (p : string) (now : Z)
| EvOpen (c : Conn)
| EvData (c : Conn) (m : Msg) (now : Z)
| EvTick (c : Conn) (now : Z)
| EvGrace (c : Conn)
| EvTransportClose (c : Conn)
| EvConnectTo (p : string) (now : Z)
| EvEnableHosting (abort : bool)
| EvDisableHosting (abort : bool)
| EvCloseConnection (p : string)
| EvCloseAll
| EvAllow (p : string) | EvDeny (p : string) | EvBan (p : string) | EvUnban (p : string)
| EvSyncObject (uuid : string) (obj : Json)
| EvUnsync (uuid : string)
| EvSendTo (p : string) (m : Msg)
| EvSendToAll (m : Msg)
| EvSendToAllExcept (p : string) (m : Msg)
| EvOn (ev : NetworkEvent) (h : nat)
| EvSetAccept (b : bool)
| EvSetUseWhitelist (b : bool).

Section Steps.
Variable eff : nat -> NetworkEvent -> CbArgs -> Net -> Net.

(** [peer.on('open')]: [this.peer = peer; this.id = peer.id]. *)
Definition peer_open (i : string) (n : Net) : Net :=
  run_cbs eff PEER_OPENED ANone (upd_id (fun _ => Some i) (upd_peer (fun _ => true) n)).

(** The interval of [c] fires only until [clearInterval]; the grace
    [setTimeout] of [close()] fires once and calls [connection.close()],
    whose transport [close] event runs [#close] (the collaborator's
    contract). *)
Definition step (e : Ev) (n : Net) : Net :=
  match e with
  | EvPeerOpen i => peer_open i n
  | EvInbound p now => on_connection eff p now n
  | EvOpen c => open_ eff c n
  | EvData c m now => state_of (data eff c m now n)
  | EvTick c now => if existsb (Nat.eqb c.(cid)) n.(intervals) then timeout c now n else n
  | EvGrace c =>
      if existsb (Nat.eqb c.(cid)) n.(graceq)
      then close_ eff c (upd_graceq (filter (fun i => negb (Nat.eqb i c.(cid)))) n)
      else n
  | EvTransportClose c => close_ eff c n
  | EvConnectTo p now => state_of (connectTo p now n)
  | EvEnableHosting b => enableHosting b n
  | EvDisableHosting b => disableHosting b n
  | EvCloseConnection p => closeConnection p n
  | EvCloseAll => closeAllConnections n
  | EvAllow p => allow p n
  | EvDeny p => deny p n
  | EvBan p => ban p n
  | EvUnban p => unban p n
  | EvSyncObject u o => state_of (syncObject eff u o n)
  | EvUnsync u => state_of (unsync eff u n)
  | EvSendTo p m => sendTo p m n
  | EvSendToAll m => sendToAll m n
  | EvSendToAllExcept p m => sendToAllExcept p m n
  | EvOn ev h => on ev h n
  | EvSetAccept b => upd_acceptConnections (fun _ => b) n
  | EvSetUseWhitelist b => upd_useWhitelist (fun _ => b) n
  end.

Definition run (evs : list Ev) (n : Net) : Net := fold_left (fun acc e => step e acc) evs n.

(** Heartbeat traces of one connection [c]: interval ticks and inbound data,
    with their [Date.now()]. [hb_run] returns the final state and the times
    of the ticks that took the timeout branch of [#timeout]. *)
Inductive HbEv := HTick (now : Z) | HData (m : Msg) (now : Z).

Fixpoint hb_run (c : Conn) (evs : list HbEv) (n : Net) : Net * list Z :=
  match evs with
  | [] => (n, [])
  | HTick t :: r =>
      if existsb (Nat.eqb c.(cid)) n.(intervals) then
        let fired_timeout := (6000 <? t - timer_begin c n)%Z in
        let (n', ts) := hb_run c r (timeout c t n) in
        (n', if fired_timeout then t :: ts else ts)
      else hb_run c r n
  | HData m t :: r => hb_run c r (state_of (data eff c m t n))
  end.

End Steps.

(** Every inbound message of the trace comes at most 6000 ms after the
    previous one (or after [last], the last reset before the trace) when the
    next tick comes. *)
Fixpoint gaps_ok (last : Z) (evs : list HbEv) : Prop :=
  match evs with
  | [] => True
  | HTick t :: r => (t - last <= 6000)%Z /\ gaps_ok last r
  | HData _ t :: r => gaps_ok t r
  end.

(** The first tick more than 6000 ms after [b]. *)
Fixpoint first_over (b : Z) (ts : list Z) : option Z :=
  match ts with
  | [] => None
  | t :: r => if (6000 <? t - b)%Z then Some t else first_over b r
  end.

(** Counting entries of the connection table. *)
Definition count_admitted (l : list (string * Conn)) : nat :=
  List.length (filter (fun kc => (snd kc).(creceiver) && (snd kc).(cadmitted)) l).

Definition count_initiators (l : list (string * Conn)) : nat :=
  List.length (filter (fun kc => negb (snd kc).(creceiver)) l).

(** Each entry of [connections] is keyed by the peer id of its object. *)
Definition keys_ok (l : list (string * Conn)) : Prop :=
  Forall (fun kc => fst kc = (snd kc).(cpeer)) l.

(** The bound the table keeps on connections that have got past [#open]. *)
Definition table_inv (n : Net) : Prop :=
  keys_ok n.(connections) /\
  if n.(isHosting)
  then count_initiators n.(connections) = 0 /\
       count_admitted n.(connections) <= n.(maxClient) - 1
  else count_admitted n.(connections) = 0 /\ count_initiators n.(connections) <= 1.

(** The spec's reading of the lists: whitelist and blacklist as sets built by
    insertions ([allow], [ban]) and removals ([deny], [unban]). *)
Inductive ListOp := OAllow (p : string) | ODeny (p : string) | OBan (p : string) | OUnban (p : string).

Fixpoint set_member (x : string) (wl : bool) (bl : bool) (ops : list ListOp) : bool * bool :=
  match ops with
  | [] => (wl, bl)
  | OAllow p :: r => set_member x (if String.eqb p x then true else wl) bl r
  | ODeny p :: r => set_member x (if String.eqb p x then false else wl) bl r
  | OBan p :: r => set_member x wl (if String.eqb p x then true else bl) r
  | OUnban p :: r => set_member x wl (if String.eqb p x then false else bl) r
  end.

(** [!blacklist.has(id) && (!useWhitelist || whitelist.has(id))] under set
    semantics, starting from empty lists. *)
Definition spec_list_admission (useWl : bool) (ops : list ListOp) (x : string) : bool :=
  let (w, b) := set_member x false false ops in negb b && (negb useWl || w).

(** The code's list operations. *)
Definition apply_op (o : ListOp) (n : Net) : Net :=
  match o with OAllow p => allow p n | ODeny p => deny p n | OBan p => ban p n | OUnban p => unban p n end.

(** The list part of the admission test of [#open]. *)
Definition code_list_admission (n : Net) (x : string) : bool :=
  negb (includes x n.(blacklist)) && negb (n.(useWhitelist) && negb (includes x n.(whitelist))).
End Network.

(** ** [proxyfy] / [unproxyfy] *)
Module Proxy.

(** References: a plain object of the heap, or a [Proxy] object. *)
Inductive Ref := RObj (l : nat) | RPrx (k : nat).

Definition ref_eqb (a b : Ref) : bool :=
  match a, b with
  | RObj x, RObj y | RPrx x, RPrx y => Nat.eqb x y
  | _, _ => false
  end.

Inductive Val :=
| VUndef
| VNull
| VBool (b : bool)
| VNum (z : Z)
| VStr (s : string)
| VRef (r : Ref).

(** The data a proxy closes over: its [target], [root], [path] and the
    [onchange] callback (an id). *)
Record PrxRec := mkPrx { ptarget : nat; proot : nat; ppath : list string; ponchange : nat }.

(** The JavaScript heap: plain objects (property lists), proxies, the
    module-level [proxyCache] [WeakMap], and the log of [onchange] calls
    [(callback, root, path, value)]. *)
Record Rt := mkRt {
  heap : list (list (string * Val));
  prx : list PrxRec;
  cache : list (Ref * Ref);
  calls : list (nat * nat * list string * Val) }.

Fixpoint replace_nth {A : Type} (i : nat) (x : A) (l : list A) : list A :=
  match l, i with
  | [], _ => []
  | _ :: r, O => x :: r
  | y :: r, S j => y :: replace_nth j x r
  end.

(** [target[p]] on plain object [l] ([undefined] when absent). *)
Definition prop (rt : Rt) (l : nat) (p : string) : option Val :=
  match nth_error rt.(heap) l with
  | Some ps => Some (match JsMap.get String.eqb p ps with Some v => v | None => VUndef end)
  | None => None
  end.

(** [Reflect.set(target, p, x)] on plain object [l]. *)
Definition write_prop (l : nat) (p : string) (x : Val) (rt : Rt) : option Rt :=
  match nth_error rt.(heap) l with
  | Some ps => Some (mkRt (replace_nth l (JsMap.set String.eqb p x ps) rt.(heap))
                          rt.(prx) rt.(cache) rt.(calls))
  | None => None
  end.

(** [proxyfy(object, onchange, root, path)] for the plain object [l]:
    [root] defaults to [object]; both directions go into [proxyCache]. *)
Definition proxyfy (l : nat) (onchange : nat) (root : option nat) (path : list string)
    (rt : Rt) : nat * Rt :=
  let r := match root with Some r => r | None => l end in
  let k := List.length rt.(prx) in
  (k, mkRt rt.(heap) (rt.(prx) ++ [mkPrx l r path onchange])
        (JsMap.set ref_eqb (RPrx k) (RObj l) (JsMap.set ref_eqb (RObj l) (RPrx k) rt.(cache)))
        rt.(calls)).

(** [v[p]]: a plain read, or the [get] trap when [v] is a proxy. [None] is a
    [TypeError] (reading a property of [null]/[undefined]). *)
Definition get_val (v : Val) (p : string) (rt : Rt) : option (Val * Rt) :=
  match v with
  | VUndef | VNull => None
  | VRef (RObj l) => option_map (fun w => (w, rt)) (prop rt l p)
  | VRef (RPrx k) =>
      match nth_error rt.(prx) k with
      | None => None
      | Some pr =>
          match prop rt pr.(ptarget) p with
          | None => None
          | Some (VRef r) =>
              match JsMap.get ref_eqb r rt.(cache) with
              | Some r' => Some (VRef r', rt)
              | None =>
                  match r with
                  | RObj l' =>
                      let (k', rt') := proxyfy l' pr.(ponchange) (Some pr.(proot))
                                         (pr.(ppath) ++ [p]) rt in
                      Some (VRef (RPrx k'), rt')
                  | RPrx _ => None (* every proxy is a key of proxyCache *)
                  end
              end
          | Some w => Some (w, rt)
          end
      end
  | _ => Some (VUndef, rt)
  end.

(** [v[p] = x]: a plain write, or the [set] trap when [v] is a proxy
    ([Reflect.set] then [onchange(root, [...path, p], x)]). Writing on a
    primitive raises in strict mode. *)
Definition set_val (v : Val) (p : string) (x : Val) (rt : Rt) : option Rt :=
  match v with
  | VRef (RObj l) => write_prop l p x rt
  | VRef (RPrx k) =>
      match nth_error rt.(prx) k with
      | None => None
      | Some pr =>
          option_map (fun rt' => mkRt rt'.(heap) rt'.(prx) rt'.(cache)
                        (rt'.(calls) ++ [(pr.(ponchange), pr.(proot), pr.(ppath) ++ [p], x)]))
            (write_prop pr.(ptarget) p x rt)
      end
  | _ => None
  end.

(** [unproxyfy(v)]: [proxyCache.get(v) ?? null]; [WeakMap.get] of a
    primitive is [undefined]. *)
Definition unproxyfy (v : Val) (rt : Rt) : Val :=
  match v with
  | VRef r => match JsMap.get ref_eqb r rt.(cache) with Some r' => VRef r' | None => VNull end
  | _ => VNull
  end.

(** [v.k1.k2...kn] *)
Fixpoint read_chain (v : Val) (ks : list string) (rt : Rt) : option (Val * Rt) :=
  match ks with
  | [] => Some (v, rt)
  | k :: r => match get_val v k rt with
              | None => None
              | Some (w, rt') => read_chain w r rt'
              end
  end.

(** [v.k1...kn[p] = x] *)
Definition assign (v : Val) (ks : list string) (p : string) (x : Val) (rt : Rt) : option Rt :=
  match read_chain v ks rt with
  | Some (b, rt') => set_val b p x rt'
  | None => None
  end.

End Proxy.

(** * Properties of the connection layer *)
Module NetworkFacts.
Import Network.

(** ** Map and list lemmas *)

Lemma get_set_same {V : Type} (k : string) (v : V) (m : list (string * V)) :
  JsMap.get String.eqb k (JsMap.set String.eqb k v m) = Some v.
Proof.
  induction m as [|[k' v'] m IH]; simpl.
  - rewrite String.eqb_refl. reflexivity.
  - destruct (String.eqb k k') eqn:E; simpl; rewrite E; [reflexivity | exact IH].
Qed.

Lemma get_delete_same {V : Type} (k : string) (m : list (string * V)) :
  JsMap.get String.eqb k (JsMap.delete String.eqb k m) = None.
Proof.
  unfold JsMap.delete. induction m as [|[k' v'] m IH]; simpl; [reflexivity|].
  destruct (String.eqb k k') eqn:E; simpl; [exact IH | rewrite E; exact IH].
Qed.

Lemma filter_true_id {A : Type} (l : list A) : filter (fun _ => true) l = l.
Proof. induction l; simpl; congruence. Qed.

Lemma filter_filter_and {A : Type} (P Q : A -> bool) (l : list A) :
  filter Q (filter P l) = filter (fun x => P x && Q x) l.
Proof.
  induction l as [|a l IH]; simpl; [reflexivity|].
  destruct (P a); simpl; [destruct (Q a); simpl; congruence | exact IH].
Qed.

Lemma length_filter_le {A : Type} (P : A -> bool) (l : list A) :
  List.length (filter P l) <= List.length l.
Proof. induction l as [|a l IH]; simpl; [lia|]. destruct (P a); simpl; lia. Qed.

Lemma length_filter_filter_le {A : Type} (P Q : A -> bool) (l : list A) :
  List.length (filter Q (filter P l)) <= List.length (filter Q l).
Proof.
  induction l as [|a l IH]; simpl; [lia|].
  destruct (P a); simpl; destruct (Q a); simpl; lia.
Qed.

(** ** [send] only appends to the outbox *)

Lemma upd_outbox_compose (f g : list (nat * Msg) -> list (nat * Msg)) (n : Net) :
  upd_outbox f (upd_outbox g n) = upd_outbox (fun o => f (g o)) n.
Proof. destruct n; reflexivity. Qed.

Lemma upd_outbox_nil (n : Net) : upd_outbox (fun o => o ++ []) n = n.
Proof. destruct n; unfold upd_outbox; simpl; rewrite app_nil_r; reflexivity. Qed.

Lemma fold_send_except (p : string) (m : Msg) :
  forall (l : list (string * Conn)) (acc : Net),
  fold_left (fun acc kc => if String.eqb (fst kc) p then acc else send (snd kc) m acc) l acc =
  upd_outbox (fun o => o ++ map (fun kc => ((snd kc).(cid), m))
                              (filter (fun kc => negb (String.eqb (fst kc) p)) l)) acc.
Proof.
  induction l as [|kc l IH]; intros acc; simpl.
  - symmetry. apply upd_outbox_nil.
  - destruct (String.eqb (fst kc) p); simpl; rewrite IH; [reflexivity|].
    destruct acc; unfold send, upd_outbox; simpl. rewrite <- app_assoc. reflexivity.
Qed.


(** ** CHANGESYNC *)

Lemma assign_path_null (path : list string) (v : Json) : assign_path JNull path v = None.
Proof. destruct path as [|k [|k2 r]]; reflexivity. Qed.




(** C1 *)
(** C1 (code defect): a CHANGESYNC for a uuid that [syncedObjects] does not
    hold is not a silent no-op: [unproxyfy(undefined)] is [null] and the
    path walk raises a [TypeError] (the handler's promise rejects), for
    every path and value; apart from the liveness-timer reset nothing has
    changed when it raises. UNSYNC and NEWSYNC check [syncedObjects.has]
    first; CHANGESYNC does not. *)
Theorem changesync_unknown_uuid_raises :
  forall (eff : nat -> NetworkEvent -> CbArgs -> Net -> Net) (c : Conn) (u : string)
         (path : list string) (v : Json) (now : Z) (n : Net),
  get_obj u n.(syncedObjects) = None ->
  data eff c (MChangeSync u path v) now n = Raise "TypeError" (timer_reset c now n).
Proof.
  intros eff c u path v now n Hu.
  unfold data, classify. simpl syncedObjects. change (syncedObjects (timer_reset c now n))
    with (syncedObjects n). rewrite Hu, assign_path_null. reflexivity.
Qed.

(** A host with connection "b" and no synced object. *)
Definition host_b : Net :=
  mkNet true (Some "h") true 15 true true ["b"] [] [("b", mkConn 0 "b" true true)]
    [(HOST_P2P_SYNCED_DATA_CHANGED, 0)] [] [(0, 0%Z)] [0] [] 1 [] [].

Lemma changesync_unknown_uuid_raises_witness :
  get_obj "u" host_b.(syncedObjects) = None /\
  data no_effect (mkConn 0 "b" true true) (MChangeSync "u" ["toto"; "lolo"] (JNum 3)) 1000 host_b
  = Raise "TypeError" (timer_reset (mkConn 0 "b" true true) 1000 host_b).
Proof.
  split; [reflexivity|].
  apply (changesync_unknown_uuid_raises no_effect (mkConn 0 "b" true true) "u"
           ["toto"; "lolo"] (JNum 3) 1000 host_b). reflexivity.
Defined.




(** ** [#open]: admission and the late-join snapshot *)

Lemma existsb_filter_removed (i : nat) (l : list nat) :
  existsb (Nat.eqb i) (filter (fun j => negb (Nat.eqb j i)) l) = false.
Proof.
  induction l as [|j l IH]; simpl; [reflexivity|].
  destruct (Nat.eqb j i) eqn:E; simpl; [exact IH|].
  rewrite Nat.eqb_sym, E. exact IH.
Qed.

Lemma fold_sendTo_newsync (p : string) :
  forall (l : list (string * Json)) (acc : Net),
  fold_left (fun acc ue => sendTo p (MNewSync (fst ue) (snd ue)) acc) l acc =
  upd_outbox (fun o => o ++
    match get_conn p acc.(connections) with
    | Some c' => map (fun ue => (c'.(cid), MNewSync (fst ue) (snd ue))) l
    | None => []
    end) acc.
Proof.
  induction l as [|ue l IH]; intros acc; simpl.
  - destruct (get_conn p (connections acc)); symmetry; apply upd_outbox_nil.
  - unfold sendTo at 2. destruct (get_conn p (connections acc)) as [c'|] eqn:E.
    + rewrite IH. change (connections (send c' (MNewSync (fst ue) (snd ue)) acc))
        with (connections acc). rewrite E.
      destruct acc; unfold send, upd_outbox; simpl. rewrite <- app_assoc. reflexivity.
    + rewrite IH, E. reflexivity.
Qed.

(** C2 *)
(** C2: when the transport of a receiver-role connection opens, it is
    admitted ([rejected] is false) exactly when the Network is hosting,
    accepts connections, its table (which already holds this connection)
    has fewer than [maxClient] entries, the peer id is not blacklisted and
    the whitelist is off or holds the id. A rejected connection takes the
    [cleanclose] path: no callback runs (so no HOST_P2P_OPENED), the only
    message sent is [Network$CLOSE] (no CONFIRM), its entry and interval are
    gone. An admitted one runs the HOST_P2P_OPENED callbacks and then sends
    CONFIRM. *)
Theorem open_admission_decision :
  forall (eff : nat -> NetworkEvent -> CbArgs -> Net -> Net) (c : Conn) (n : Net),
  c.(creceiver) = true ->
  (rejected c n = false <->
     n.(isHosting) = true /\ n.(acceptConnections) = true /\
     List.length n.(connections) < n.(maxClient) /\
     includes c.(cpeer) n.(blacklist) = false /\
     (n.(useWhitelist) = false \/ includes c.(cpeer) n.(whitelist) = true)) /\
  (rejected c n = true ->
     open_ eff c n = cleanclose c n /\
     (cleanclose c n).(fired) = n.(fired) /\
     (cleanclose c n).(outbox) = n.(outbox) ++ [(c.(cid), MStr "Network$CLOSE")] /\
     get_conn c.(cpeer) (cleanclose c n).(connections) = None /\
     existsb (Nat.eqb c.(cid)) (cleanclose c n).(intervals) = false) /\
  (rejected c n = false ->
     exists rest, (open_ eff c n).(outbox) =
       (run_cbs eff HOST_P2P_OPENED ANone (mark_admitted c n)).(outbox) ++
       (c.(cid), MStr "Network$CONFIRM") :: rest).
Proof.
  intros eff c n Hr. split; [|split].
  - unfold rejected, isFull. split.
    + intros Hx. repeat rewrite orb_false_iff in Hx.
      destruct Hx as [[[[H1 H2] H3] H4] H5].
      apply negb_false_iff in H1. apply negb_false_iff in H2. apply Nat.leb_gt in H3.
      repeat split; auto. apply andb_false_iff in H5.
      destruct H5 as [H5|H5]; [left; exact H5 | right; apply negb_false_iff in H5; exact H5].
    + intros (H1 & H2 & H3 & H4 & H5). apply Nat.leb_gt in H3.
      rewrite H1, H2, H3, H4. simpl.
      destruct H5 as [H5|H5]; rewrite H5; simpl; [reflexivity | apply andb_false_r].
  - intros Hj. unfold open_. rewrite Hr, Hj. repeat split.
    + unfold cleanclose, close, clean, send. simpl.
      unfold JsMap.delete. apply get_delete_same.
    + apply existsb_filter_removed.
  - intros Hj. unfold open_. rewrite Hr, Hj. rewrite fold_sendTo_newsync.
    destruct (run_cbs eff HOST_P2P_OPENED ANone (mark_admitted c n)).
    unfold send, upd_outbox; simpl. rewrite <- app_assoc. eexists. reflexivity.
Qed.

(** A hosting Network whose table holds the pending connection "b". *)
Definition pending_b : Conn := mkConn 0 "b" true false.

Definition host_pending (maxc : nat) (so : list (string * Json)) : Net :=
  mkNet true (Some "h") true maxc true false [] [] [("b", pending_b)]
    [(HOST_P2P_OPENED, 0)] so [(0, 0%Z)] [0] [] 1 [] [].

Lemma open_admission_decision_witness :
  rejected pending_b (host_pending 1 []) = true /\
  open_ no_effect pending_b (host_pending 1 []) = cleanclose pending_b (host_pending 1 []).
Proof.
  split; [reflexivity|].
  apply (open_admission_decision no_effect pending_b (host_pending 1 []) eq_refl).
  reflexivity.
Defined.

(** C7 *)
(** C7 (as stated, false): the HOST_P2P_OPENED callbacks are awaited before
    CONFIRM and the snapshot loop, so the snapshot is taken after them. Here
    the host holds one synced object when "b" is admitted, and its
    HOST_P2P_OPENED callback syncs a second one: "b" gets CONFIRM followed
    by two NEWSYNC (and one more, broadcast, before CONFIRM). *)
Definition eff_sync_on_open (h : nat) (ev : NetworkEvent) (a : CbArgs) (n : Net) : Net :=
  match ev with
  | HOST_P2P_OPENED => state_of (syncObject no_effect "u2" (JObj [("y", JNum 2)]) n)
  | _ => n
  end.

(** C7 counterexample: one synced object at admission, yet "b" gets
    CONFIRM and then two NEWSYNC (after one broadcast NEWSYNC). *)
Lemma open_snapshot_counterexample :
  List.length (host_pending 15 [("u1", JObj [("x", JNum 1)])]).(syncedObjects) = 1 /\
  (open_ eff_sync_on_open pending_b (host_pending 15 [("u1", JObj [("x", JNum 1)])])).(outbox) =
  [(0, MNewSync "u2" (JObj [("y", JNum 2)])); (0, MStr "Network$CONFIRM");
   (0, MNewSync "u1" (JObj [("x", JNum 1)])); (0, MNewSync "u2" (JObj [("y", JNum 2)]))].
Proof. split; reflexivity. Qed.

(** C7 (amended): after the awaited HOST_P2P_OPENED callbacks an admitted
    receiver sends CONFIRM on its own connection and then, through
    [sendTo(this.id)], one NEWSYNC [(uuid, plain value)] per entry of
    [syncedObjects] as it is at that point, all to the connection the table
    holds for that peer id (none when it holds none); the table of synced
    objects is left as is. A NEWSYNC for a uuid already tracked changes
    nothing but the liveness timer. *)
Theorem open_snapshot_exact :
  forall (eff : nat -> NetworkEvent -> CbArgs -> Net -> Net) (c : Conn) (n : Net),
  c.(creceiver) = true -> rejected c n = false ->
  let n1 := run_cbs eff HOST_P2P_OPENED ANone (mark_admitted c n) in
  (open_ eff c n).(outbox) =
    n1.(outbox) ++ (c.(cid), MStr "Network$CONFIRM") ::
      match get_conn c.(cpeer) n1.(connections) with
      | Some c' => map (fun ue => (c'.(cid), MNewSync (fst ue) (snd ue))) n1.(syncedObjects)
      | None => []
      end /\
  (open_ eff c n).(syncedObjects) = n1.(syncedObjects) /\
  (forall (c2 : Conn) (u : string) (o : Json) (now : Z) (n2 : Net),
     has_obj u n2.(syncedObjects) = true ->
     data eff c2 (MNewSync u o) now n2 = Ret (timer_reset c2 now n2)).
Proof.
  intros eff c n Hr Hj n1. split; [|split].
  - unfold open_. rewrite Hr, Hj. fold n1. rewrite fold_sendTo_newsync.
    destruct n1; unfold send, upd_outbox; simpl. rewrite <- app_assoc. reflexivity.
  - unfold open_. rewrite Hr, Hj. fold n1. rewrite fold_sendTo_newsync.
    destruct n1; reflexivity.
  - intros c2 u o now n2 Hh. unfold data, classify.
    change (syncedObjects (timer_reset c2 now n2)) with (syncedObjects n2).
    rewrite Hh. reflexivity.
Qed.

Lemma open_snapshot_exact_witness :
  rejected pending_b (host_pending 15 [("u1", JObj [("x", JNum 1)]); ("u3", JObj [])]) = false /\
  (open_ no_effect pending_b (host_pending 15 [("u1", JObj [("x", JNum 1)]); ("u3", JObj [])])).(outbox) =
  [(0, MStr "Network$CONFIRM"); (0, MNewSync "u1" (JObj [("x", JNum 1)])); (0, MNewSync "u3" (JObj []))].
Proof.
  split; [reflexivity|].
  destruct (open_snapshot_exact no_effect pending_b
              (host_pending 15 [("u1", JObj [("x", JNum 1)]); ("u3", JObj [])]) eq_refl eq_refl) as [H _].
  rewrite H. reflexivity.
Defined.

(** ** Access lists: [allow], [deny], [ban], [unban] *)

Lemma keys_ok_get (p : string) (l : list (string * Conn)) (c : Conn) :
  keys_ok l -> get_conn p l = Some c -> c.(cpeer) = p.
Proof.
  unfold get_conn. induction 1 as [|[k c'] l Hk Hl IH]; simpl; [discriminate|].
  simpl in Hk. destruct (String.eqb p k) eqn:E.
  - intros Heq. injection Heq as <-. apply String.eqb_eq in E. congruence.
  - exact IH.
Qed.

Lemma cleanclose_connections (c : Conn) (n : Net) :
  (cleanclose c n).(connections) = JsMap.delete String.eqb c.(cpeer) n.(connections).
Proof. reflexivity. Qed.

Lemma closeConnection_gone (p : string) (n : Net) :
  keys_ok n.(connections) -> get_conn p (closeConnection p n).(connections) = None.
Proof.
  intros Hk. unfold closeConnection. destruct (get_conn p (connections n)) as [c|] eqn:E.
  - rewrite cleanclose_connections. rewrite (keys_ok_get p _ c Hk E). apply get_delete_same.
  - exact E.
Qed.

Lemma includes_remove_first_other (p q : string) (l : list string) :
  q <> p -> includes q (remove_first p l) = includes q l.
Proof.
  intros Hq. induction l as [|y r IH]; simpl; [reflexivity|].
  destruct (String.eqb p y) eqn:E; simpl.
  - apply String.eqb_eq in E. subst y.
    assert (Hf : String.eqb q p = false) by (apply String.eqb_neq; exact Hq).
    unfold includes. simpl. rewrite Hf. reflexivity.
  - unfold includes in *. simpl. rewrite IH. reflexivity.
Qed.

Lemma includes_count_zero (p : string) (l : list string) :
  count_occ String.string_dec l p = 0 -> includes p l = false.
Proof.
  induction l as [|y r IH]; simpl; [reflexivity|].
  destruct (String.string_dec y p) as [->|Hne]; [discriminate|].
  intros H. unfold includes in *. simpl.
  assert (Hf : String.eqb p y = false) by (apply String.eqb_neq; congruence).
  rewrite Hf. apply IH. exact H.
Qed.

Lemma includes_remove_first_once (p : string) (l : list string) :
  count_occ String.string_dec l p <= 1 -> includes p (remove_first p l) = false.
Proof.
  induction l as [|y r IH]; simpl; [reflexivity|].
  destruct (String.string_dec y p) as [->|Hne].
  - rewrite String.eqb_refl. intros H. apply includes_count_zero. lia.
  - assert (Hf : String.eqb p y = false) by (apply String.eqb_neq; congruence).
    rewrite Hf. intros H. unfold includes in *. simpl. rewrite Hf. apply IH. exact H.
Qed.

(** C10 *)
(** C10 (as stated, false): [deny] closes nothing unless the whitelist is in
    use on a hosting Network; here, hosting without the whitelist, the
    connection of "x" is still in the table after [deny("x")]. *)
Definition host_x (useWl : bool) : Net :=
  mkNet true (Some "h") true 15 true useWl ["x"] [] [("x", mkConn 0 "x" true true)]
    [] [] [(0, 0%Z)] [0] [] 1 [] [].

(** C10 counterexample: [deny("x")] on a hosting Network without the
    whitelist empties the whitelist and keeps the connection of "x". *)
Lemma deny_keeps_connection_counterexample :
  (deny "x" (host_x false)).(whitelist) = [] /\
  get_conn "x" (deny "x" (host_x false)).(connections) = Some (mkConn 0 "x" true true).
Proof. split; reflexivity. Qed.

(** C10 (amended): [deny(id)] removes [id] from the whitelist (the other
    ids keep their membership; an id listed once is no longer listed, while
    an id allowed twice keeps an entry, the defect of C6) and, only when
    [useWhitelist] and [isHosting] both hold, closes the connection of [id]
    through [closeConnection] (the Closing path [cleanclose]), after which
    the table holds no entry for [id]; otherwise the table is left as is.
    [ban(id)] appends [id] to the blacklist and always closes the connection
    of [id] the same way. *)
Theorem deny_ban_close :
  forall (p : string) (n : Net),
  keys_ok n.(connections) ->
  (forall q, q <> p -> includes q (deny p n).(whitelist) = includes q n.(whitelist)) /\
  (count_occ String.string_dec n.(whitelist) p <= 1 -> includes p (deny p n).(whitelist) = false) /\
  (n.(useWhitelist) && n.(isHosting) = true ->
     deny p n = closeConnection p (upd_whitelist (remove_first p) n) /\
     get_conn p (deny p n).(connections) = None) /\
  (n.(useWhitelist) && n.(isHosting) = false ->
     (deny p n).(connections) = n.(connections)) /\
  ban p n = closeConnection p (upd_blacklist (fun b => b ++ [p]) n) /\
  (ban p n).(blacklist) = n.(blacklist) ++ [p] /\
  get_conn p (ban p n).(connections) = None.
Proof.
  intros p n Hk.
  assert (Hcw : forall n0 : Net, (closeConnection p n0).(whitelist) = n0.(whitelist)).
  { intros n0. unfold closeConnection. destruct (get_conn p (connections n0)); reflexivity. }
  assert (Hcb : forall n0 : Net, (closeConnection p n0).(blacklist) = n0.(blacklist)).
  { intros n0. unfold closeConnection. destruct (get_conn p (connections n0)); reflexivity. }
  assert (Hw : (deny p n).(whitelist) = remove_first p n.(whitelist)).
  { unfold deny. simpl. destruct (useWhitelist n && isHosting n); [rewrite Hcw|]; reflexivity. }
  split; [|split; [|split; [|split; [|split; [|split]]]]].
  - intros q Hq. rewrite Hw. apply includes_remove_first_other. exact Hq.
  - intros H1. rewrite Hw. apply includes_remove_first_once. exact H1.
  - unfold deny. change (useWhitelist (upd_whitelist (remove_first p) n)) with (useWhitelist n).
    change (isHosting (upd_whitelist (remove_first p) n)) with (isHosting n).
    intros Hy. rewrite Hy. split; [reflexivity|]. apply closeConnection_gone. exact Hk.
  - unfold deny. change (useWhitelist (upd_whitelist (remove_first p) n)) with (useWhitelist n).
    change (isHosting (upd_whitelist (remove_first p) n)) with (isHosting n).
    intros Hy. rewrite Hy. reflexivity.
  - reflexivity.
  - unfold ban. rewrite Hcb. reflexivity.
  - unfold ban. apply closeConnection_gone. exact Hk.
Qed.

Lemma deny_ban_close_witness :
  keys_ok (host_x true).(connections) /\
  includes "x" (deny "x" (host_x true)).(whitelist) = false /\
  get_conn "x" (deny "x" (host_x true)).(connections) = None.
Proof.
  assert (Hk : keys_ok (host_x true).(connections)) by (repeat constructor).
  split; [exact Hk|].
  destruct (deny_ban_close "x" (host_x true) Hk) as (_ & H1 & H2 & _).
  split; [exact (H1 ltac:(simpl; lia)) | exact (proj2 (H2 eq_refl))].
Defined.

(** C6 *)
(** C6 (as stated, false): [allow] pushes without checking for the id and
    [deny] splices one occurrence only, so after [allow("x")],
    [allow("x")], [deny("x")] the whitelist still holds "x". With the
    whitelist in use on a hosting Network, the set reading rejects "x",
    the code admits it: the inbound connection of "x" passes the test of
    [#open] and reaches HOST_P2P_OPENED. *)
Definition wl_host : Net :=
  mkNet true (Some "h") true 15 true true [] [] [] [(HOST_P2P_OPENED, 0)] [] [] [] [] 0 [] [].

Definition dup_allow_ops : list ListOp := [OAllow "x"; OAllow "x"; ODeny "x"].

(** C6: after [allow("x")], [allow("x")], [deny("x")] the set reading
    rejects "x", while the whitelist still holds it and [#open] admits the
    connection of "x" and runs HOST_P2P_OPENED. *)
Lemma duplicate_allow_admits :
  let n1 := fold_left (fun acc o => apply_op o acc) dup_allow_ops wl_host in
  let n2 := on_connection no_effect "x" 0 n1 in
  let c := fst (newConn "x" true 0 n1) in
  spec_list_admission true dup_allow_ops "x" = false /\
  n1.(whitelist) = ["x"] /\
  code_list_admission n1 "x" = true /\
  rejected c n2 = false /\
  (open_ no_effect c n2).(fired) = [(0, HOST_P2P_OPENED, ANone)].
Proof. repeat split; reflexivity. Qed.

(** ** The connection table along a trace *)

(** [n'] has the mode and the bound of [n] and a sub-table of its table. *)
Definition Shrinks (n n' : Net) : Prop :=
  n'.(isHosting) = n.(isHosting) /\ n'.(maxClient) = n.(maxClient) /\
  exists P, n'.(connections) = filter P n.(connections).

Lemma shrinks_refl (n : Net) : Shrinks n n.
Proof.
  split; [reflexivity | split; [reflexivity|]].
  exists (fun _ => true). symmetry. apply filter_true_id.
Qed.

Lemma shrinks_trans (n1 n2 n3 : Net) : Shrinks n1 n2 -> Shrinks n2 n3 -> Shrinks n1 n3.
Proof.
  intros (H1 & H2 & P & HP) (H3 & H4 & Q & HQ).
  split; [congruence | split; [congruence|]].
  exists (fun x => P x && Q x). rewrite HQ, HP. apply filter_filter_and.
Qed.

Lemma shrinks_frame (n0 n n' : Net) :
  Shrinks n0 n -> n'.(isHosting) = n.(isHosting) -> n'.(maxClient) = n.(maxClient) ->
  n'.(connections) = n.(connections) -> Shrinks n0 n'.
Proof.
  intros Hs H1 H2 H3. apply (shrinks_trans _ n); [exact Hs|].
  split; [exact H1 | split; [exact H2|]].
  exists (fun _ => true). rewrite filter_true_id. exact H3.
Qed.

Ltac frame := eapply shrinks_frame; [eassumption | reflexivity | reflexivity | reflexivity].

Section ShrinkOps.
Variable n0 : Net.

Lemma sh_send c m n : Shrinks n0 n -> Shrinks n0 (send c m n).
Proof. intros; frame. Qed.
Lemma sh_syncedObjects f n : Shrinks n0 n -> Shrinks n0 (upd_syncedObjects f n).
Proof. intros; frame. Qed.
Lemma sh_graceq f n : Shrinks n0 n -> Shrinks n0 (upd_graceq f n).
Proof. intros; frame. Qed.
Lemma sh_timers f n : Shrinks n0 n -> Shrinks n0 (upd_timers f n).
Proof. intros; frame. Qed.
Lemma sh_whitelist f n : Shrinks n0 n -> Shrinks n0 (upd_whitelist f n).
Proof. intros; frame. Qed.
Lemma sh_blacklist f n : Shrinks n0 n -> Shrinks n0 (upd_blacklist f n).
Proof. intros; frame. Qed.
Lemma sh_id f n : Shrinks n0 n -> Shrinks n0 (upd_id f n).
Proof. intros; frame. Qed.
Lemma sh_peer f n : Shrinks n0 n -> Shrinks n0 (upd_peer f n).
Proof. intros; frame. Qed.
Lemma sh_callbacks f n : Shrinks n0 n -> Shrinks n0 (upd_callbacks f n).
Proof. intros; frame. Qed.
Lemma sh_accept f n : Shrinks n0 n -> Shrinks n0 (upd_acceptConnections f n).
Proof. intros; frame. Qed.
Lemma sh_useWhitelist f n : Shrinks n0 n -> Shrinks n0 (upd_useWhitelist f n).
Proof. intros; frame. Qed.
Lemma sh_fired f n : Shrinks n0 n -> Shrinks n0 (upd_fired f n).
Proof. intros; frame. Qed.

Lemma sh_clean c n : Shrinks n0 n -> Shrinks n0 (clean c n).
Proof.
  intros Hs. apply (shrinks_trans _ n); [exact Hs|].
  split; [reflexivity | split; [reflexivity|]]. eexists. reflexivity.
Qed.

Lemma sh_cleanclose c n : Shrinks n0 n -> Shrinks n0 (cleanclose c n).
Proof. intros Hs. unfold cleanclose, close. apply sh_graceq, sh_send, sh_clean, Hs. Qed.

Lemma sh_closeConnection p n : Shrinks n0 n -> Shrinks n0 (closeConnection p n).
Proof.
  intros Hs. unfold closeConnection. destruct (get_conn p (connections n));
    [apply sh_cleanclose|]; exact Hs.
Qed.

Lemma sh_sendTo p m n : Shrinks n0 n -> Shrinks n0 (sendTo p m n).
Proof. intros Hs. unfold sendTo. destruct (get_conn p (connections n)); [apply sh_send|]; exact Hs. Qed.

Lemma sh_fold {A : Type} (g : Net -> A -> Net) :
  (forall acc x, Shrinks n0 acc -> Shrinks n0 (g acc x)) ->
  forall l n, Shrinks n0 n -> Shrinks n0 (fold_left g l n).
Proof. intros Hg l. induction l as [|x l IH]; intros n Hs; simpl; [exact Hs|]. apply IH, Hg, Hs. Qed.

Lemma sh_sendToAll m n : Shrinks n0 n -> Shrinks n0 (sendToAll m n).
Proof. intros Hs. unfold sendToAll. apply sh_fold; [|exact Hs]. intros; apply sh_send; assumption. Qed.

Lemma sh_sendToAllExcept p m n : Shrinks n0 n -> Shrinks n0 (sendToAllExcept p m n).
Proof.
  intros Hs. unfold sendToAllExcept. apply sh_fold; [|exact Hs].
  intros acc kc H. destruct (String.eqb (fst kc) p); [|apply sh_send]; exact H.
Qed.

Lemma sh_closeAll n : Shrinks n0 n -> Shrinks n0 (closeAllConnections n).
Proof.
  intros Hs. unfold closeAllConnections. apply sh_fold; [|exact Hs].
  intros; apply sh_cleanclose; assumption.
Qed.

End ShrinkOps.

Create HintDb shrink.
#[export] Hint Resolve shrinks_refl sh_send sh_syncedObjects sh_graceq sh_timers sh_whitelist
  sh_blacklist sh_id sh_peer sh_callbacks sh_accept sh_useWhitelist sh_fired sh_clean
  sh_cleanclose sh_closeConnection sh_sendTo sh_sendToAll sh_sendToAllExcept sh_closeAll : shrink.

Lemma keys_ok_filter (P : string * Conn -> bool) (l : list (string * Conn)) :
  keys_ok l -> keys_ok (filter P l).
Proof.
  unfold keys_ok. induction 1 as [|x l Hx Hl IH]; simpl; [constructor|].
  destruct (P x); [constructor; assumption | exact IH].
Qed.

Lemma shrinks_inv (n n' : Net) : Shrinks n n' -> table_inv n -> table_inv n'.
Proof.
  intros (H1 & H2 & P & HP) (Hk & Hc). unfold table_inv. rewrite H1, H2, HP.
  split; [apply keys_ok_filter; exact Hk|].
  unfold count_admitted, count_initiators in *.
  pose proof (length_filter_filter_le P (fun kc => creceiver (snd kc) && cadmitted (snd kc))
                (connections n)).
  pose proof (length_filter_filter_le P (fun kc => negb (creceiver (snd kc))) (connections n)).
  destruct (isHosting n); lia.
Qed.

Ltac shrink := eapply shrinks_inv; [|eassumption]; auto with shrink.

(** Replacing or adding the entry of [p] by an object keyed [p] that a count
    does not count. *)
Lemma keys_ok_set (p : string) (c : Conn) (l : list (string * Conn)) :
  c.(cpeer) = p -> keys_ok l -> keys_ok (JsMap.set String.eqb p c l).
Proof.
  unfold keys_ok. intros Hc. induction 1 as [|[k c'] l Hx Hl IH]; simpl.
  - constructor; [simpl; congruence | constructor].
  - destruct (String.eqb p k) eqn:E.
    + apply String.eqb_eq in E. constructor; [simpl; congruence | exact Hl].
    + constructor; [exact Hx | exact IH].
Qed.

Lemma count_set_le (q : Conn -> bool) (p : string) (c : Conn) (l : list (string * Conn)) :
  q c = false ->
  List.length (filter (fun kc => q (snd kc)) (JsMap.set String.eqb p c l)) <=
  List.length (filter (fun kc => q (snd kc)) l).
Proof.
  intros Hq. induction l as [|[k c'] l IH]; simpl.
  - rewrite Hq. simpl. lia.
  - destruct (String.eqb p k); simpl.
    + rewrite Hq. destruct (q c'); simpl; lia.
    + destruct (q c'); simpl; lia.
Qed.

(** Marking entries admitted keeps keys and roles. *)
Lemma mark_admitted_inv (c : Conn) (n : Net) :
  table_inv n -> n.(isHosting) = true -> List.length n.(connections) < n.(maxClient) ->
  table_inv (mark_admitted c n).
Proof.
  intros [Hk Hc] Hh Hl. unfold table_inv in *. rewrite Hh in Hc. destruct Hc as [Hi _].
  change (isHosting (mark_admitted c n)) with (isHosting n).
  change (maxClient (mark_admitted c n)) with (maxClient n).
  change (connections (mark_admitted c n)) with
    (map (fun kc : string * Conn =>
      if Nat.eqb (snd kc).(cid) c.(cid)
      then (fst kc, mkConn (snd kc).(cid) (snd kc).(cpeer) (snd kc).(creceiver) true)
      else kc) (connections n)).
  rewrite Hh. unfold count_admitted, count_initiators in *.
  set (g := fun kc : string * Conn =>
      if Nat.eqb (snd kc).(cid) c.(cid)
      then (fst kc, mkConn (snd kc).(cid) (snd kc).(cpeer) (snd kc).(creceiver) true)
      else kc).
  assert (Hr : forall kc, creceiver (snd (g kc)) = creceiver (snd kc)).
  { intros kc. unfold g. destruct (Nat.eqb (cid (snd kc)) (cid c)); reflexivity. }
  split; [|split].
  - unfold keys_ok in *. apply Forall_map. revert Hk. apply Forall_impl.
    intros kc Hx. unfold g. destruct (Nat.eqb (cid (snd kc)) (cid c)); simpl; exact Hx.
  - rewrite <- Hi. clear Hk Hi Hl. induction (connections n) as [|kc l IH]; simpl; [reflexivity|].
    rewrite Hr. destruct (negb (creceiver (snd kc))); simpl; congruence.
  - pose proof (length_filter_le (fun kc => creceiver (snd kc) && cadmitted (snd kc))
                  (map g (connections n))) as Hf.
    rewrite length_map in Hf. lia.
Qed.

(** [closeAllConnections] removes every entry whose key is the peer id of an
    entry it walks over. *)
Lemma closeAll_fold (l : list (string * Conn)) :
  forall acc : Net,
  (fold_left (fun acc kc => cleanclose (snd kc) acc) l acc).(connections) =
  filter (fun kv => negb (existsb (fun kc => String.eqb (snd kc).(cpeer) (fst kv)) l))
    acc.(connections).
Proof.
  induction l as [|kc l IH]; intros acc; simpl.
  - symmetry. apply filter_true_id.
  - rewrite IH, cleanclose_connections. unfold JsMap.delete. rewrite filter_filter_and.
    apply filter_ext. intros kv. rewrite negb_orb. reflexivity.
Qed.

Lemma filter_none {A : Type} (P : A -> bool) (l : list A) :
  (forall x, In x l -> P x = false) -> filter P l = [].
Proof.
  induction l as [|x l IH]; intros H; simpl; [reflexivity|].
  rewrite (H x (or_introl eq_refl)). apply IH. intros y Hy. apply H. right. exact Hy.
Qed.

Lemma closeAll_empty (n : Net) :
  keys_ok n.(connections) -> (closeAllConnections n).(connections) = [].
Proof.
  intros Hk. unfold closeAllConnections. rewrite closeAll_fold.
  assert (Hin : forall kv, In kv (connections n) ->
            existsb (fun kc => String.eqb (snd kc).(cpeer) (fst kv)) (connections n) = true).
  { intros kv Hkv. apply existsb_exists. exists kv. split; [exact Hkv|].
    unfold keys_ok in Hk. rewrite Forall_forall in Hk. rewrite (Hk kv Hkv).
    apply String.eqb_refl. }
  apply filter_none. intros kv Hkv. rewrite (Hin kv Hkv). reflexivity.
Qed.

Lemma empty_inv (n : Net) : n.(connections) = [] -> table_inv n.
Proof.
  intros H. unfold table_inv, count_admitted, count_initiators. rewrite H. simpl.
  split; [constructor|]. destruct (isHosting n); lia.
Qed.

Section Invariant.
Variable eff : nat -> NetworkEvent -> CbArgs -> Net -> Net.
Hypothesis eff_inv : forall h ev a n, table_inv n -> table_inv (eff h ev a n).

Lemma run_cbs_inv (ev : NetworkEvent) (a : CbArgs) (n : Net) :
  table_inv n -> table_inv (run_cbs eff ev a n).
Proof.
  unfold run_cbs. generalize (getCallbacks ev n) as l. intros l. revert n.
  induction l as [|h l IH]; intros n Hn; simpl; [exact Hn|].
  apply IH, eff_inv. unfold log_call. shrink.
Qed.

Lemma data_inv (c : Conn) (m : Msg) (now : Z) (n : Net) :
  table_inv n -> table_inv (state_of (data eff c m now n)).
Proof.
  intros Hn. unfold data.
  assert (H0 : table_inv (timer_reset c now n)) by (unfold timer_reset; shrink).
  generalize dependent (timer_reset c now n). intros n0 H0.
  destruct m as [s|u o|u path v|u|x]; simpl.
  - destruct (String.eqb s "Network$CLOSE"); [simpl; shrink|].
    destruct (String.eqb s "Network$IAMHERE"); [exact H0|].
    destruct (String.eqb s "Network$CONFIRM" && negb (creceiver c));
      simpl; apply run_cbs_inv; exact H0.
  - destruct (has_obj u (syncedObjects n0)); simpl; [exact H0|].
    destruct o; simpl; try exact H0.
    apply run_cbs_inv. shrink.
  - destruct (assign_path _ path v); simpl; [|exact H0].
    destruct (creceiver c); simpl; apply run_cbs_inv; shrink.
  - destruct (get_obj u (syncedObjects n0)); simpl; [|exact H0].
    apply run_cbs_inv. shrink.
  - destruct x; simpl; try exact H0; apply run_cbs_inv; exact H0.
Qed.

Lemma step_inv (e : Ev) (n : Net) : table_inv n -> table_inv (step eff e n).
Proof.
  intros Hn. destruct e; simpl.
  - (* EvPeerOpen *) unfold peer_open. apply run_cbs_inv. shrink.
  - (* EvInbound *) unfold on_connection, newConn. apply run_cbs_inv.
    destruct Hn as [Hk Hc]. unfold table_inv in *. simpl.
    unfold count_admitted, count_initiators in *.
    pose proof (count_set_le (fun c => creceiver c && cadmitted c) p
                  (mkConn (nextCid n) p true false) (connections n) eq_refl) as Ha.
    pose proof (count_set_le (fun c => negb (creceiver c)) p
                  (mkConn (nextCid n) p true false) (connections n) eq_refl) as Hi.
    cbv beta in Ha, Hi.
    split; [apply keys_ok_set; [reflexivity | exact Hk]|].
    destruct (isHosting n); lia.
  - (* EvOpen *) unfold open_. destruct (creceiver c); [|apply run_cbs_inv; exact Hn].
    destruct (rejected c n) eqn:Hr; [shrink|].
    assert (Hm : table_inv (mark_admitted c n)).
    { unfold rejected, isFull in Hr. repeat rewrite orb_false_iff in Hr.
      destruct Hr as [[[[H1 _] H3] _] _]. apply negb_false_iff in H1.
      apply Nat.leb_gt in H3. apply mark_admitted_inv; assumption. }
    apply (run_cbs_inv HOST_P2P_OPENED ANone) in Hm.
    generalize dependent (run_cbs eff HOST_P2P_OPENED ANone (mark_admitted c n)).
    intros n1 Hn1. eapply shrinks_inv; [|exact Hn1].
    apply sh_fold; [|apply sh_send, shrinks_refl].
    intros acc ue Hs. apply sh_sendTo. exact Hs.
  - (* EvData *) apply data_inv. exact Hn.
  - (* EvTick *) destruct (existsb (Nat.eqb (cid c)) (intervals n)); [|exact Hn].
    unfold timeout. destruct (6000 <? now - timer_begin c n)%Z; shrink.
  - (* EvGrace *) destruct (existsb (Nat.eqb (cid c)) (graceq n)); [|exact Hn].
    unfold close_. eapply shrinks_inv; [apply sh_clean, shrinks_refl|].
    apply run_cbs_inv. shrink.
  - (* EvTransportClose *) unfold close_. eapply shrinks_inv; [apply sh_clean, shrinks_refl|].
    apply run_cbs_inv. exact Hn.
  - (* EvConnectTo *) unfold connectTo.
    destruct (match id n with Some i => String.eqb p i | None => false end); [exact Hn|].
    destruct (negb (peer n)); [exact Hn|].
    destruct (isHosting n) eqn:Hh; [exact Hn|].
    destruct (hasConnections n) eqn:Hc; [exact Hn|]. simpl.
    unfold hasConnections in Hc. apply negb_false_iff, Nat.eqb_eq, length_zero_iff_nil in Hc.
    unfold table_inv, count_admitted, count_initiators. simpl. rewrite Hh, Hc. simpl.
    split; [constructor; [reflexivity | constructor] | split; reflexivity].
  - (* EvEnableHosting *) unfold enableHosting.
    destruct (isHosting n); simpl; [exact Hn|].
    destruct (negb (hasConnections n) || negb abort); [|exact Hn].
    apply empty_inv, closeAll_empty. exact (proj1 Hn).
  - (* EvDisableHosting *) unfold disableHosting.
    destruct (isHosting n); simpl; [|exact Hn].
    destruct (negb (hasConnections n) || negb abort); [|exact Hn].
    apply empty_inv. simpl. apply closeAll_empty. exact (proj1 Hn).
  - shrink.
  - shrink.
  - unfold allow. shrink.
  - unfold deny. destruct (useWhitelist _ && isHosting _); shrink.
  - unfold ban. shrink.
  - unfold unban. shrink.
  - (* EvSyncObject *) unfold syncObject.
    destruct (negb (isHosting n) && hasConnections n); simpl; [exact Hn|].
    destruct obj; simpl; try exact Hn.
    apply run_cbs_inv. shrink.
  - (* EvUnsync *) unfold unsync.
    destruct (negb (isHosting n) && hasConnections n); simpl; [exact Hn|].
    destruct (get_obj uuid (syncedObjects n)); simpl; [|exact Hn].
    apply run_cbs_inv. shrink.
  - shrink.
  - shrink.
  - shrink.
  - unfold on. shrink.
  - shrink.
  - shrink.
Qed.

End Invariant.

(** C5 *)
(** C5 (as stated, false): [peer.on('connection')] puts every inbound
    connection into the table before [#open] runs its admission test, in
    any mode. Two inbound connections on a started Network that is not
    hosting give two entries; on a hosting one with [maxClient = 1] they
    give two entries too. *)
Lemma table_bound_counterexample :
  let n1 := run no_effect [EvInbound "a" 0; EvInbound "b" 0] (init_net 15) in
  let n2 := run no_effect [EvPeerOpen "h"; EvEnableHosting false;
                           EvInbound "a" 0; EvInbound "b" 0] (init_net 1) in
  n1.(isHosting) = false /\ List.length n1.(connections) = 2 /\
  n2.(isHosting) = true /\ n2.(maxClient) = 1 /\ List.length n2.(connections) = 2.
Proof. repeat split; reflexivity. Qed.

(** C5 (amended): in every state reached from [new Network()] (with
    [maxClient] set once, up front) by transport events and public calls,
    and when every callback keeps the bound below, every entry of
    [connections] is keyed by its peer id and: while hosting, the table
    holds no initiator entry and at most [maxClient - 1] receiver entries
    that passed the admission test of [#open] (the entry being admitted is
    counted by [isFull]); while not hosting, it holds at most one
    initiator entry and no admitted entry. Receiver entries still waiting
    for their [open] event are not bounded in either mode. *)
Theorem table_bound_reachable :
  forall (eff : nat -> NetworkEvent -> CbArgs -> Net -> Net),
  (forall h ev a n, table_inv n -> table_inv (eff h ev a n)) ->
  forall (mc : nat) (evs : list Ev), table_inv (run eff evs (init_net mc)).
Proof.
  intros eff Heff mc evs. unfold run.
  assert (H0 : table_inv (init_net mc)) by (apply empty_inv; reflexivity).
  revert H0. generalize (init_net mc) as n.
  induction evs as [|e evs IH]; intros n Hn; simpl; [exact Hn|].
  apply IH. apply step_inv; assumption.
Qed.

Definition admit_a_trace : list Ev :=
  [EvPeerOpen "h"; EvEnableHosting false; EvSetUseWhitelist false; EvInbound "a" 0;
   EvOpen (mkConn 0 "a" true false)].

Lemma table_bound_reachable_witness :
  table_inv (run no_effect admit_a_trace (init_net 2)) /\
  count_admitted (run no_effect admit_a_trace (init_net 2)).(connections) = 1.
Proof.
  split; [|reflexivity].
  apply (table_bound_reachable no_effect (fun _ _ _ _ H => H) 2 admit_a_trace).
Defined.

(** ** Heartbeat *)

Lemma get_set_same_nat {V : Type} (k : nat) (v : V) (m : list (nat * V)) :
  JsMap.get Nat.eqb k (JsMap.set Nat.eqb k v m) = Some v.
Proof.
  induction m as [|[k' v'] m IH]; simpl.
  - rewrite Nat.eqb_refl. reflexivity.
  - destruct (Nat.eqb k k') eqn:E; simpl; rewrite E; [reflexivity | exact IH].
Qed.

Lemma timer_reset_begin (c : Conn) (now : Z) (n : Net) :
  timer_begin c (timer_reset c now n) = now.
Proof. unfold timer_begin, timer_reset. simpl. rewrite get_set_same_nat. reflexivity. Qed.

Lemma hb_run_tick (eff : nat -> NetworkEvent -> CbArgs -> Net -> Net) (c : Conn) (t : Z)
  (r : list HbEv) (n : Net) :
  snd (hb_run eff c (HTick t :: r) n) =
  if existsb (Nat.eqb c.(cid)) n.(intervals)
  then (if (6000 <? t - timer_begin c n)%Z then t :: snd (hb_run eff c r (timeout c t n))
        else snd (hb_run eff c r (timeout c t n)))
  else snd (hb_run eff c r n).
Proof.
  simpl. destruct (existsb (Nat.eqb (cid c)) (intervals n)); [|reflexivity].
  destruct (hb_run eff c r (timeout c t n)). reflexivity.
Qed.

Lemma hb_run_ticks_off (eff : nat -> NetworkEvent -> CbArgs -> Net -> Net) (c : Conn)
  (ts : list Z) (n : Net) :
  existsb (Nat.eqb c.(cid)) n.(intervals) = false -> snd (hb_run eff c (map HTick ts) n) = [].
Proof.
  intros Hoff. induction ts as [|t ts IH]; [reflexivity|].
  simpl map. rewrite hb_run_tick, Hoff. exact IH.
Qed.

Lemma first_over_app (b : Z) (l1 l2 : list Z) :
  first_over b (l1 ++ l2) =
  match first_over b l1 with Some t => Some t | None => first_over b l2 end.
Proof.
  induction l1 as [|t l1 IH]; simpl; [reflexivity|].
  destruct (6000 <? t - b)%Z; [reflexivity | exact IH].
Qed.

Section Heartbeat.
Variable eff : nat -> NetworkEvent -> CbArgs -> Net -> Net.
Variable c : Conn.
Hypothesis eff_timer : forall h ev a n, timer_begin c (eff h ev a n) = timer_begin c n.
Hypothesis eff_fired : forall h ev a n, exists l, (eff h ev a n).(fired) = n.(fired) ++ l.

Lemma run_cbs_timer (ev : NetworkEvent) (a : CbArgs) (n : Net) :
  timer_begin c (run_cbs eff ev a n) = timer_begin c n.
Proof.
  unfold run_cbs. generalize (getCallbacks ev n) as l. intros l. revert n.
  induction l as [|h l IH]; intros n; simpl; [reflexivity|].
  rewrite IH, eff_timer. reflexivity.
Qed.

Lemma classify_timer (c' : Conn) (m : Msg) (n : Net) :
  timer_begin c (state_of (classify eff c' m n)) = timer_begin c n.
Proof.
  destruct m as [s|u o|u path v|u|x]; simpl.
  - destruct (String.eqb s "Network$CLOSE"); [reflexivity|].
    destruct (String.eqb s "Network$IAMHERE"); [reflexivity|].
    destruct (String.eqb s "Network$CONFIRM" && negb (creceiver c')); simpl;
      [|unfold received]; apply run_cbs_timer.
  - destruct (has_obj u (syncedObjects n)); simpl; [reflexivity|].
    destruct o; simpl; try reflexivity.
    rewrite run_cbs_timer. reflexivity.
  - destruct (assign_path _ path v); simpl; [|reflexivity].
    destruct (creceiver c'); simpl; rewrite run_cbs_timer; [|reflexivity].
    unfold sendToAllExcept. rewrite fold_send_except. reflexivity.
  - destruct (get_obj u (syncedObjects n)); simpl; [|reflexivity].
    rewrite run_cbs_timer. reflexivity.
  - destruct x; simpl; try reflexivity; apply run_cbs_timer.
Qed.

Lemma data_timer (m : Msg) (now : Z) (n : Net) :
  timer_begin c (state_of (data eff c m now n)) = now.
Proof. unfold data. rewrite classify_timer. apply timer_reset_begin. Qed.

Lemma run_cbs_fired (ev : NetworkEvent) (a : CbArgs) :
  forall (l : list nat) (n : Net),
  (forall x, In x n.(fired) ->
     In x (fold_left (fun acc h => eff h ev a (log_call h ev a acc)) l n).(fired)) /\
  (forall h, In h l ->
     In (h, ev, a) (fold_left (fun acc h => eff h ev a (log_call h ev a acc)) l n).(fired)).
Proof.
  induction l as [|h l IH]; intros n; simpl; [split; [auto | tauto]|].
  destruct (eff_fired h ev a (log_call h ev a n)) as [l' Hl'].
  destruct (IH (eff h ev a (log_call h ev a n))) as [IH1 IH2].
  split.
  - intros x Hx. apply IH1. rewrite Hl'. apply in_or_app. left.
    unfold log_call. simpl. apply in_or_app. left. exact Hx.
  - intros h' [<-|Hh']; [|apply IH2; exact Hh'].
    apply IH1. rewrite Hl'. apply in_or_app. left.
    unfold log_call. simpl. apply in_or_app. right. left. reflexivity.
Qed.

End Heartbeat.

Lemma ticks_first_over (b s : Z) (k : nat) :
  (b <= s < b + 1000)%Z -> 8 <= k ->
  exists t, first_over b (map (fun i => s + 1000 * Z.of_nat i) (seq 0 k))%Z = Some t /\
            (6000 < t - b <= 7000)%Z.
Proof.
  intros Hs Hk. replace k with (8 + (k - 8)) by lia.
  rewrite seq_app, map_app, first_over_app. simpl.
  repeat match goal with
  | |- context [(6000 <? ?x)%Z] => destruct (Z.ltb_spec 6000 x)
  end; try lia; eexists; split; try reflexivity; lia.
Qed.

(** C4 *)
(** C4: for a connection [c], with callbacks that leave the liveness timer
    of [c] alone and only add to the callback log: (a) a tick of the
    interval of [c] takes [cleanclose] exactly when more than 6000 ms have
    passed since [timer_begin], and otherwise sends [Network$IAMHERE];
    (b) [cleanclose] removes the entry of [c] from the table, clears its
    interval and schedules the grace close; (c) every inbound message
    resets the timer to its arrival time, whatever it classifies as;
    (d) when every tick comes at most 6000 ms after the last inbound
    message, no tick times out; (e) when only ticks come, the first tick
    more than 6000 ms after the last reset, and only it, times out; (f)
    with ticks once a second from the first one after the last reset,
    the eighth tick at the latest is such a tick (at most 7000 ms after the
    reset); (g) when the grace close fires, the table holds no entry for
    [c] and every handler registered for the role's CLOSED event is
    called. *)
Theorem heartbeat_timeout :
  forall (eff : nat -> NetworkEvent -> CbArgs -> Net -> Net) (c : Conn),
  (forall h ev a n, timer_begin c (eff h ev a n) = timer_begin c n) ->
  (forall h ev a n, exists l, (eff h ev a n).(fired) = n.(fired) ++ l) ->
  (forall now n, existsb (Nat.eqb c.(cid)) n.(intervals) = true ->
     step eff (EvTick c now) n =
       if (6000 <? now - timer_begin c n)%Z then cleanclose c n
       else send c (MStr "Network$IAMHERE") n) /\
  (forall n,
     get_conn c.(cpeer) (cleanclose c n).(connections) = None /\
     existsb (Nat.eqb c.(cid)) (cleanclose c n).(intervals) = false /\
     existsb (Nat.eqb c.(cid)) (cleanclose c n).(graceq) = true) /\
  (forall m now n, timer_begin c (state_of (data eff c m now n)) = now) /\
  (forall b evs n, timer_begin c n = b -> gaps_ok b evs -> snd (hb_run eff c evs n) = []) /\
  (forall ts n, existsb (Nat.eqb c.(cid)) n.(intervals) = true ->
     snd (hb_run eff c (map HTick ts) n) =
       match first_over (timer_begin c n) ts with Some t => [t] | None => [] end) /\
  (forall b s k, (b <= s < b + 1000)%Z -> 8 <= k ->
     exists t, first_over b (map (fun i => s + 1000 * Z.of_nat i) (seq 0 k))%Z = Some t /\
               (6000 < t - b <= 7000)%Z) /\
  (forall n, existsb (Nat.eqb c.(cid)) n.(graceq) = true ->
     get_conn c.(cpeer) (step eff (EvGrace c) n).(connections) = None /\
     forall h, In h (getCallbacks (if c.(creceiver) then HOST_P2P_CLOSED else CLIENT_P2P_CLOSED) n) ->
       In (h, if c.(creceiver) then HOST_P2P_CLOSED else CLIENT_P2P_CLOSED, ANone)
          (step eff (EvGrace c) n).(fired)).
Proof.
  intros eff c Ht Hf.
  split; [|split; [|split; [|split; [|split; [|split]]]]].
  - (* (a) *) intros now n Hi. simpl. rewrite Hi. reflexivity.
  - (* (b) *) intros n. split; [|split].
    + rewrite cleanclose_connections. apply get_delete_same.
    + apply existsb_filter_removed.
    + unfold cleanclose, close. simpl. rewrite existsb_app. simpl.
      rewrite Nat.eqb_refl, orb_true_r. reflexivity.
  - (* (c) *) intros m now n. apply data_timer. exact Ht.
  - (* (d) *) intros b evs. revert b.
    induction evs as [|[t|m t] evs IH]; intros b n Hb Hg; [reflexivity| |].
    + destruct Hg as [Ht0 Hg]. rewrite hb_run_tick.
      destruct (existsb (Nat.eqb (cid c)) (intervals n)); [|apply (IH b); assumption].
      rewrite Hb. destruct (Z.ltb_spec 6000 (t - b)); [lia|].
      apply (IH b); [|exact Hg].
      unfold timeout. rewrite Hb. destruct (Z.ltb_spec 6000 (t - b)); [lia|]. exact Hb.
    + simpl in Hg |- *. apply (IH t); [|exact Hg]. apply data_timer. exact Ht.
  - (* (e) *) intros ts. induction ts as [|t ts IH]; intros n Hi; [reflexivity|].
    simpl map. rewrite hb_run_tick, Hi. simpl first_over. unfold timeout.
    destruct (6000 <? t - timer_begin c n)%Z.
    + rewrite hb_run_ticks_off; [reflexivity|]. apply existsb_filter_removed.
    + exact (IH (send c (MStr "Network$IAMHERE") n) Hi).
  - (* (f) *) intros b s k Hs Hk. apply ticks_first_over; assumption.
  - (* (g) *) intros n Hg. simpl. rewrite Hg. unfold close_. split.
    + change (connections (clean c ?x)) with
        (JsMap.delete String.eqb c.(cpeer) (connections x)). apply get_delete_same.
    + intros h Hh. change (fired (clean c ?x)) with (fired x).
      unfold run_cbs. apply (run_cbs_fired eff Hf). exact Hh.
Qed.

(** A receiver connection "b" of a hosting Network, last heard at 0. *)
Definition hb_conn : Conn := mkConn 0 "b" true true.

Definition hb_host : Net :=
  mkNet true (Some "h") true 15 true false [] [] [("b", hb_conn)]
    [(HOST_P2P_CLOSED, 4)] [] [(0, 0%Z)] [0] [] 1 [] [].

Lemma heartbeat_timeout_witness :
  snd (hb_run no_effect hb_conn (map HTick [1000; 2000; 3000; 4000; 5000; 6000; 7000; 8000]%Z)
         hb_host) = [7000%Z].
Proof.
  destruct (heartbeat_timeout no_effect hb_conn (fun _ _ _ _ => eq_refl)
              (fun _ _ _ n => ex_intro _ [] (eq_sym (app_nil_r (fired n)))))
    as (_ & _ & _ & _ & He & _).
  rewrite (He _ hb_host eq_refl). reflexivity.
Defined.

(** ** Further properties of the [Network] operations *)

Lemma event_eqb_eq (a b : NetworkEvent) : event_eqb a b = true <-> a = b.
Proof.
  split; [destruct a, b; simpl; congruence | intros ->; destruct b; reflexivity].
Qed.

Lemma get_set_other {V : Type} (k k' : string) (v : V) (m : list (string * V)) :
  String.eqb k' k = false ->
  JsMap.get String.eqb k' (JsMap.set String.eqb k v m) = JsMap.get String.eqb k' m.
Proof.
  intros Hk. induction m as [|[k0 v0] m IH]; simpl.
  - rewrite Hk. reflexivity.
  - destruct (String.eqb k k0) eqn:E; simpl.
    + apply String.eqb_eq in E. subst k0. rewrite Hk. reflexivity.
    + destruct (String.eqb k' k0); [reflexivity | exact IH].
Qed.

Lemma get_delete_other {V : Type} (k k' : string) (m : list (string * V)) :
  String.eqb k' k = false ->
  JsMap.get String.eqb k' (JsMap.delete String.eqb k m) = JsMap.get String.eqb k' m.
Proof.
  intros Hk. unfold JsMap.delete. induction m as [|[k0 v0] m IH]; simpl; [reflexivity|].
  destruct (String.eqb k k0) eqn:E; simpl.
  - apply String.eqb_eq in E. subst k0. rewrite Hk. exact IH.
  - destruct (String.eqb k' k0); [reflexivity | exact IH].
Qed.

Lemma get_set_other_nat {V : Type} (k k' : nat) (v : V) (m : list (nat * V)) :
  Nat.eqb k' k = false ->
  JsMap.get Nat.eqb k' (JsMap.set Nat.eqb k v m) = JsMap.get Nat.eqb k' m.
Proof.
  intros Hk. induction m as [|[k0 v0] m IH]; simpl.
  - rewrite Hk. reflexivity.
  - destruct (Nat.eqb k k0) eqn:E; simpl.
    + apply Nat.eqb_eq in E. subst k0. rewrite Hk. reflexivity.
    + destruct (Nat.eqb k' k0); [reflexivity | exact IH].
Qed.

(** A key that is absent goes last, and deleting it again gives the map back. *)
Lemma delete_set_absent {V : Type} (k : string) (v : V) (m : list (string * V)) :
  JsMap.get String.eqb k m = None ->
  JsMap.delete String.eqb k (JsMap.set String.eqb k v m) = m.
Proof.
  unfold JsMap.delete. induction m as [|[k0 v0] m IH]; simpl; intros Hg.
  - rewrite String.eqb_refl. reflexivity.
  - destruct (String.eqb k k0) eqn:E; [discriminate|]. simpl. rewrite E. simpl.
    f_equal. apply IH. exact Hg.
Qed.

Lemma remove_first_app_absent (p : string) (w : list string) :
  includes p w = false -> remove_first p (w ++ [p]) = w.
Proof.
  unfold includes. induction w as [|y w IH]; simpl; intros H.
  - rewrite String.eqb_refl. reflexivity.
  - apply orb_false_iff in H. destruct H as [H1 H2]. rewrite H1. f_equal. apply IH. exact H2.
Qed.

(** Callbacks that change nothing: each registered one is logged once, in
    registration order. *)
Lemma run_cbs_quiet (ev : NetworkEvent) (a : CbArgs) (n : Net) :
  run_cbs no_effect ev a n =
  upd_fired (fun l => l ++ map (fun h => (h, ev, a)) (getCallbacks ev n)) n.
Proof.
  unfold run_cbs. generalize (getCallbacks ev n) as l. intros l. revert n.
  induction l as [|h l IH]; intros n; simpl.
  - destruct n; unfold upd_fired; simpl. rewrite app_nil_r. reflexivity.
  - unfold no_effect at 1. rewrite IH. destruct n; unfold log_call, upd_fired; simpl.
    rewrite <- app_assoc. reflexivity.
Qed.

Lemma getCallbacks_on (ev ev' : NetworkEvent) (h : nat) (n : Net) :
  getCallbacks ev (on ev' h n) = getCallbacks ev n ++ (if event_eqb ev' ev then [h] else []).
Proof.
  unfold getCallbacks, on, upd_callbacks. simpl. rewrite filter_app, map_app. simpl.
  destruct (event_eqb ev' ev); reflexivity.
Qed.

Lemma fold_send_all (m : Msg) :
  forall (l : list (string * Conn)) (acc : Net),
  fold_left (fun acc kc => send (snd kc) m acc) l acc =
  upd_outbox (fun o => o ++ map (fun kc => ((snd kc).(cid), m)) l) acc.
Proof.
  induction l as [|kc l IH]; intros acc; simpl; [symmetry; apply upd_outbox_nil|].
  rewrite IH. destruct acc; unfold send, upd_outbox; simpl. rewrite <- app_assoc. reflexivity.
Qed.

(** What [closeAllConnections] does to the outbox, the grace queue and the
    intervals. *)
Lemma closeAll_outbox (l : list (string * Conn)) :
  forall acc : Net,
  (fold_left (fun acc kc => cleanclose (snd kc) acc) l acc).(outbox) =
  acc.(outbox) ++ map (fun kc => ((snd kc).(cid), MStr "Network$CLOSE")) l.
Proof.
  induction l as [|kc l IH]; intros acc; simpl; [rewrite app_nil_r; reflexivity|].
  rewrite IH. simpl. rewrite <- app_assoc. reflexivity.
Qed.

Lemma closeAll_graceq (l : list (string * Conn)) :
  forall acc : Net,
  (fold_left (fun acc kc => cleanclose (snd kc) acc) l acc).(graceq) =
  acc.(graceq) ++ map (fun kc => (snd kc).(cid)) l.
Proof.
  induction l as [|kc l IH]; intros acc; simpl; [rewrite app_nil_r; reflexivity|].
  rewrite IH. simpl. rewrite <- app_assoc. reflexivity.
Qed.

Lemma closeAll_intervals (l : list (string * Conn)) :
  forall acc : Net,
  (fold_left (fun acc kc => cleanclose (snd kc) acc) l acc).(intervals) =
  filter (fun i => forallb (fun kc => negb (Nat.eqb i (snd kc).(cid))) l) acc.(intervals).
Proof.
  induction l as [|kc l IH]; intros acc; simpl; [symmetry; apply filter_true_id|].
  rewrite IH. simpl. rewrite filter_filter_and. reflexivity.
Qed.

Lemma closeAll_frame (l : list (string * Conn)) :
  forall acc : Net,
  let r := fold_left (fun acc kc => cleanclose (snd kc) acc) l acc in
  r.(isHosting) = acc.(isHosting) /\ r.(syncedObjects) = acc.(syncedObjects) /\
  r.(fired) = acc.(fired).
Proof.
  induction l as [|kc l IH]; intros acc; simpl; [auto|].
  destruct (IH (cleanclose (snd kc) acc)) as (H1 & H2 & H3). rewrite H1, H2, H3. auto.
Qed.

Lemma existsb_filter_out (x : nat) (P : nat -> bool) (l : list nat) :
  P x = false -> existsb (Nat.eqb x) (filter P l) = false.
Proof.
  intros Hx. induction l as [|i l IH]; simpl; [reflexivity|].
  destruct (P i) eqn:E; simpl; [|exact IH].
  destruct (Nat.eqb x i) eqn:Ei; [apply Nat.eqb_eq in Ei; subst i; congruence | exact IH].
Qed.

Lemma run_cbs_graceq (eff : nat -> NetworkEvent -> CbArgs -> Net -> Net) :
  (forall h ev a n, (eff h ev a n).(graceq) = n.(graceq)) ->
  forall ev a n, (run_cbs eff ev a n).(graceq) = n.(graceq).
Proof.
  intros He ev a n. unfold run_cbs. generalize (getCallbacks ev n) as l. intros l. revert n.
  induction l as [|h l IH]; intros n; simpl; [reflexivity|]. rewrite IH, He. reflexivity.
Qed.

(** X2: [enableHosting(abort)] on a Network that is not hosting: with live
    connections and [abort] it changes nothing; otherwise it starts hosting,
    sends [Network$CLOSE] to every entry of the table in table order,
    schedules their grace closes and leaves the table empty. On a hosting
    Network it changes nothing. *)
Theorem enableHosting_effect :
  forall (abort : bool) (n : Net), keys_ok n.(connections) ->
  (n.(isHosting) = true -> enableHosting abort n = n) /\
  (n.(isHosting) = false -> n.(connections) <> [] -> abort = true -> enableHosting abort n = n) /\
  (n.(isHosting) = false -> (n.(connections) = [] \/ abort = false) ->
     (enableHosting abort n).(isHosting) = true /\
     (enableHosting abort n).(connections) = [] /\
     (enableHosting abort n).(outbox) =
       n.(outbox) ++ map (fun kc => ((snd kc).(cid), MStr "Network$CLOSE")) n.(connections) /\
     (enableHosting abort n).(graceq) = n.(graceq) ++ map (fun kc => (snd kc).(cid)) n.(connections)).
Proof.
  intros abort n Hk. unfold enableHosting, hasConnections.
  split; [intros H; rewrite H; reflexivity|]. split.
  - intros H Hc Ha. rewrite H, Ha. simpl.
    destruct (List.length (connections n)) eqn:E; [apply length_zero_iff_nil in E; contradiction|].
    reflexivity.
  - intros H Hc. rewrite H. simpl.
    assert (Hb : negb (negb (Nat.eqb (List.length (connections n)) 0)) || negb abort = true).
    { destruct Hc as [Hc|Hc]; rewrite Hc; [reflexivity | apply orb_true_r]. }
    rewrite Hb. unfold closeAllConnections.
    destruct (closeAll_frame (connections (upd_isHosting (fun _ => true) n))
                (upd_isHosting (fun _ => true) n)) as (H1 & _).
    split; [exact H1|]. split; [|split].
    + apply (closeAll_empty (upd_isHosting (fun _ => true) n)). exact Hk.
    + rewrite closeAll_outbox. reflexivity.
    + rewrite closeAll_graceq. reflexivity.
Qed.

Definition two_clients : Net :=
  mkNet true (Some "c") false 15 true true [] []
    [("a", mkConn 0 "a" true false); ("b", mkConn 1 "b" true false)]
    [] [] [(0, 0%Z); (1, 0%Z)] [0; 1] [] 2 [] [].

Lemma enableHosting_effect_witness :
  keys_ok two_clients.(connections) /\
  (enableHosting false two_clients).(connections) = [] /\
  (enableHosting false two_clients).(outbox) =
    [(0, MStr "Network$CLOSE"); (1, MStr "Network$CLOSE")].
Proof.
  assert (Hk : keys_ok two_clients.(connections)) by (repeat constructor).
  destruct (enableHosting_effect false two_clients Hk) as (_ & _ & H3).
  destruct (H3 eq_refl (or_intror eq_refl)) as (_ & H4 & H5 & _).
  split; [exact Hk | split; [exact H4 | rewrite H5; reflexivity]].
Defined.

(** X3: [disableHosting(abort)] on a hosting Network: with live connections and
    [abort] it changes nothing; otherwise it sends [Network$CLOSE] to every
    entry of the table, schedules their grace closes, empties the table and
    stops hosting. On a Network that is not hosting it changes nothing. *)
Theorem disableHosting_effect :
  forall (abort : bool) (n : Net), keys_ok n.(connections) ->
  (n.(isHosting) = false -> disableHosting abort n = n) /\
  (n.(isHosting) = true -> n.(connections) <> [] -> abort = true -> disableHosting abort n = n) /\
  (n.(isHosting) = true -> (n.(connections) = [] \/ abort = false) ->
     (disableHosting abort n).(isHosting) = false /\
     (disableHosting abort n).(connections) = [] /\
     (disableHosting abort n).(outbox) =
       n.(outbox) ++ map (fun kc => ((snd kc).(cid), MStr "Network$CLOSE")) n.(connections) /\
     (disableHosting abort n).(graceq) = n.(graceq) ++ map (fun kc => (snd kc).(cid)) n.(connections)).
Proof.
  intros abort n Hk. unfold disableHosting, hasConnections.
  split; [intros H; rewrite H; reflexivity|]. split.
  - intros H Hc Ha. rewrite H, Ha. simpl.
    destruct (List.length (connections n)) eqn:E; [apply length_zero_iff_nil in E; contradiction|].
    reflexivity.
  - intros H Hc. rewrite H.
    assert (Hb : negb (negb (Nat.eqb (List.length (connections n)) 0)) || negb abort = true).
    { destruct Hc as [Hc|Hc]; rewrite Hc; [reflexivity | apply orb_true_r]. }
    rewrite Hb. split; [reflexivity|]. split; [|split].
    + simpl. apply closeAll_empty. exact Hk.
    + simpl. unfold closeAllConnections. rewrite closeAll_outbox. reflexivity.
    + simpl. unfold closeAllConnections. rewrite closeAll_graceq. reflexivity.
Qed.

Definition host_two : Net :=
  mkNet true (Some "h") true 15 true false [] []
    [("a", mkConn 0 "a" true true); ("b", mkConn 1 "b" true true)]
    [] [] [(0, 0%Z); (1, 0%Z)] [0; 1] [] 2 [] [].

Lemma disableHosting_effect_witness :
  keys_ok host_two.(connections) /\
  (disableHosting true host_two) = host_two /\
  (disableHosting false host_two).(connections) = [].
Proof.
  assert (Hk : keys_ok host_two.(connections)) by (repeat constructor).
  destruct (disableHosting_effect true host_two Hk) as (_ & H2 & _).
  destruct (disableHosting_effect false host_two Hk) as (_ & _ & H3).
  split; [exact Hk|]. split.
  - apply H2; [reflexivity | discriminate | reflexivity].
  - apply (H3 eq_refl (or_intror eq_refl)).
Defined.

(** X4: [closeAllConnections()] on a table keyed by peer ids sends
    [Network$CLOSE] to every entry in table order, schedules one grace close
    per entry, clears the interval of every entry and leaves the table
    empty; the hosting mode, the synced objects and the callback log are
    unchanged. *)
Theorem closeAllConnections_effect :
  forall (n : Net), keys_ok n.(connections) ->
  let n' := closeAllConnections n in
  n'.(connections) = [] /\
  n'.(outbox) = n.(outbox) ++ map (fun kc => ((snd kc).(cid), MStr "Network$CLOSE")) n.(connections) /\
  n'.(graceq) = n.(graceq) ++ map (fun kc => (snd kc).(cid)) n.(connections) /\
  (forall kc, In kc n.(connections) -> existsb (Nat.eqb (snd kc).(cid)) n'.(intervals) = false) /\
  n'.(isHosting) = n.(isHosting) /\ n'.(syncedObjects) = n.(syncedObjects) /\
  n'.(fired) = n.(fired).
Proof.
  intros n Hk n'. unfold n', closeAllConnections.
  destruct (closeAll_frame (connections n) n) as (H1 & H2 & H3).
  split; [apply closeAll_empty; exact Hk|].
  split; [apply closeAll_outbox|]. split; [apply closeAll_graceq|].
  split; [|auto].
  intros kc Hin. rewrite closeAll_intervals. apply existsb_filter_out.
  apply not_true_iff_false. intros Hf. rewrite forallb_forall in Hf.
  specialize (Hf kc Hin). rewrite Nat.eqb_refl in Hf. discriminate.
Qed.

Lemma closeAllConnections_effect_witness :
  keys_ok host_two.(connections) /\
  (closeAllConnections host_two).(intervals) = [] /\
  (closeAllConnections host_two).(graceq) = [0; 1].
Proof.
  assert (Hk : keys_ok host_two.(connections)) by (repeat constructor).
  destruct (closeAllConnections_effect host_two Hk) as (_ & _ & Hg & _).
  split; [exact Hk | split; [reflexivity | rewrite Hg; reflexivity]].
Defined.

(** X5: [connectTo(id)] checks, in this order: connecting to its own id, not
    started, hosting, already connected, each with its own error and no
    change. When all checks pass, the table holds exactly one initiator
    entry for [id] with a fresh handle, its timer set to now and its
    interval running, and the synced objects are cleared. *)
Theorem connectTo_outcomes :
  forall (p : string) (now : Z) (n : Net),
  (n.(id) = Some p -> connectTo p now n = Raise "You can't connect to yourself" n) /\
  (n.(id) <> Some p -> n.(peer) = false ->
     connectTo p now n = Raise "You can't connect to somebody without starting the Network and being connected to the signaling server" n) /\
  (n.(id) <> Some p -> n.(peer) = true -> n.(isHosting) = true ->
     connectTo p now n = Raise "You can't connect to somebody while hosting" n) /\
  (n.(id) <> Some p -> n.(peer) = true -> n.(isHosting) = false -> n.(connections) <> [] ->
     connectTo p now n = Raise "You can only connect to one peer at a time" n) /\
  (n.(id) <> Some p -> n.(peer) = true -> n.(isHosting) = false -> n.(connections) = [] ->
     exists n', connectTo p now n = Ret n' /\
       n'.(connections) = [(p, mkConn n.(nextCid) p false false)] /\
       n'.(syncedObjects) = [] /\
       timer_begin (mkConn n.(nextCid) p false false) n' = now /\
       existsb (Nat.eqb n.(nextCid)) n'.(intervals) = true /\
       n'.(nextCid) = S n.(nextCid)).
Proof.
  intros p now n.
  assert (Hid : n.(id) <> Some p ->
            match id n with Some i => String.eqb p i | None => false end = false).
  { intros H. destruct (id n) as [i|]; [|reflexivity].
    apply String.eqb_neq. intros ->. apply H. reflexivity. }
  unfold connectTo. split; [|split; [|split; [|split]]].
  - intros H. rewrite H, String.eqb_refl. reflexivity.
  - intros H Hp. rewrite (Hid H), Hp. reflexivity.
  - intros H Hp Hh. rewrite (Hid H), Hp, Hh. reflexivity.
  - intros H Hp Hh Hc. rewrite (Hid H), Hp, Hh. unfold hasConnections.
    destruct (List.length (connections n)) eqn:E; [apply length_zero_iff_nil in E; contradiction|].
    reflexivity.
  - intros H Hp Hh Hc. rewrite (Hid H), Hp, Hh. unfold hasConnections. rewrite Hc. simpl.
    eexists. split; [reflexivity|]. simpl. split; [rewrite Hc; reflexivity|]. split; [reflexivity|].
    split; [|split; [|reflexivity]].
    + unfold timer_begin. simpl. rewrite get_set_same_nat. reflexivity.
    + rewrite existsb_app. simpl. rewrite Nat.eqb_refl, orb_true_r. reflexivity.
Qed.

Definition started_client : Net :=
  mkNet true (Some "me") false 15 true true [] [] [] [] [("u", JNum 1)] [] [] [] 4 [] [].

Lemma connectTo_outcomes_witness :
  connectTo "me" 0 started_client = Raise "You can't connect to yourself" started_client /\
  exists n', connectTo "h" 0 started_client = Ret n' /\
    n'.(connections) = [("h", mkConn 4 "h" false false)] /\ n'.(syncedObjects) = [].
Proof.
  destruct (connectTo_outcomes "me" 0 started_client) as (H1 & _).
  destruct (connectTo_outcomes "h" 0 started_client) as (_ & _ & _ & _ & H5).
  split; [exact (H1 eq_refl)|].
  destruct (H5 ltac:(discriminate) eq_refl eq_refl eq_refl) as (n' & Hr & Hc & Hs & _).
  exists n'. auto.
Defined.

(** X6: [syncObject(object)] raises when the Network is not hosting and has a
    connection. Otherwise, for a plain object (the JSON copy of the argument
    is an object), it stores the object under its uuid (other uuids keep
    their objects), sends one NEWSYNC with the object to every entry of the
    table, admitted or still pending, in table order, and runs the
    HOST_P2P_SYNCED_DATA callbacks with [(uuid, object)]. When the JSON copy
    is a primitive or null, [new Proxy] throws a TypeError before anything
    is stored or sent. *)
Theorem syncObject_effect :
  forall (eff : nat -> NetworkEvent -> CbArgs -> Net -> Net) (u : string) (o : Json) (n : Net),
  (n.(isHosting) = false -> n.(connections) <> [] ->
     syncObject eff u o n = Raise "Cannot sync object when not hosting and connected" n) /\
  (forall ps, o = JObj ps -> n.(isHosting) = true \/ n.(connections) = [] ->
     exists n', syncObject no_effect u o n = Ret n' /\
       get_obj u n'.(syncedObjects) = Some o /\
       (forall u', u' <> u -> get_obj u' n'.(syncedObjects) = get_obj u' n.(syncedObjects)) /\
       n'.(outbox) = n.(outbox) ++ map (fun kc => ((snd kc).(cid), MNewSync u o)) n.(connections) /\
       n'.(fired) = n.(fired) ++
         map (fun h => (h, HOST_P2P_SYNCED_DATA, AUuidObj u o)) (getCallbacks HOST_P2P_SYNCED_DATA n)) /\
  ((forall ps, o <> JObj ps) -> n.(isHosting) = true \/ n.(connections) = [] ->
     syncObject eff u o n = Raise "TypeError" n).
Proof.
  intros eff u o n. unfold syncObject, hasConnections.
  assert (Hb : n.(isHosting) = true \/ n.(connections) = [] ->
            negb (isHosting n) && negb (Nat.eqb (List.length (connections n)) 0) = false).
  { intros [Hc|Hc]; rewrite Hc; [reflexivity | apply andb_false_r]. }
  split; [|split].
  - intros Hh Hc. rewrite Hh. simpl.
    destruct (List.length (connections n)) eqn:E; [apply length_zero_iff_nil in E; contradiction|].
    reflexivity.
  - intros ps Ho Hc. rewrite (Hb Hc), Ho. eexists. split; [reflexivity|].
    rewrite <- Ho.
    rewrite run_cbs_quiet. unfold sendToAll. rewrite fold_send_all. simpl.
    split; [apply get_set_same|]. split; [|split; reflexivity].
    intros u' Hu'. unfold get_obj. apply get_set_other. apply String.eqb_neq. exact Hu'.
  - intros Ho Hc. rewrite (Hb Hc).
    destruct o as [| | | | |ps]; try reflexivity.
    exfalso. exact (Ho ps eq_refl).
Qed.

Lemma syncObject_effect_witness :
  (exists n', syncObject no_effect "u" (JObj [("x", JNum 7)]) host_two = Ret n' /\
    n'.(outbox) = [(0, MNewSync "u" (JObj [("x", JNum 7)])); (1, MNewSync "u" (JObj [("x", JNum 7)]))]) /\
  syncObject no_effect "u" (JObj []) two_clients =
    Raise "Cannot sync object when not hosting and connected" two_clients /\
  syncObject no_effect "u" (JNum 7) host_two = Raise "TypeError" host_two.
Proof.
  split; [|split].
  - destruct (syncObject_effect no_effect "u" (JObj [("x", JNum 7)]) host_two) as (_ & H2 & _).
    destruct (H2 _ eq_refl (or_introl eq_refl)) as (n' & Hr & _ & _ & Ho & _).
    exists n'. split; [exact Hr | rewrite Ho; reflexivity].
  - destruct (syncObject_effect no_effect "u" (JObj []) two_clients) as (H1 & _).
    apply H1; [reflexivity | discriminate].
  - destruct (syncObject_effect no_effect "u" (JNum 7) host_two) as (_ & _ & H3).
    apply H3; [intros ps; discriminate | left; reflexivity].
Defined.

(** X7: [unsync(uuid)] raises when the Network is not hosting and has a
    connection. For a uuid it does not hold it changes nothing: no message,
    no callback. For a uuid it holds, it removes that uuid only, sends
    UNSYNC to every entry of the table and runs the HOST_P2P_UNSYNCED_DATA
    callbacks with the plain object. *)
Theorem unsync_effect :
  forall (eff : nat -> NetworkEvent -> CbArgs -> Net -> Net) (u : string) (n : Net),
  (n.(isHosting) = false -> n.(connections) <> [] ->
     unsync eff u n = Raise "Cannot unsync object when not hosting and connected" n) /\
  (n.(isHosting) = true \/ n.(connections) = [] ->
     get_obj u n.(syncedObjects) = None -> unsync eff u n = Ret n) /\
  (forall o, n.(isHosting) = true \/ n.(connections) = [] ->
     get_obj u n.(syncedObjects) = Some o ->
     exists n', unsync no_effect u n = Ret n' /\
       get_obj u n'.(syncedObjects) = None /\
       (forall u', u' <> u -> get_obj u' n'.(syncedObjects) = get_obj u' n.(syncedObjects)) /\
       n'.(outbox) = n.(outbox) ++ map (fun kc => ((snd kc).(cid), MUnsync u)) n.(connections) /\
       n'.(fired) = n.(fired) ++
         map (fun h => (h, HOST_P2P_UNSYNCED_DATA, AObj o)) (getCallbacks HOST_P2P_UNSYNCED_DATA n)).
Proof.
  intros eff u n. unfold unsync, hasConnections.
  assert (Hb : n.(isHosting) = true \/ n.(connections) = [] ->
            negb (isHosting n) && negb (Nat.eqb (List.length (connections n)) 0) = false).
  { intros [Hc|Hc]; rewrite Hc; [reflexivity | apply andb_false_r]. }
  split; [|split].
  - intros Hh Hc. rewrite Hh. simpl.
    destruct (List.length (connections n)) eqn:E; [apply length_zero_iff_nil in E; contradiction|].
    reflexivity.
  - intros Hc Hg. rewrite (Hb Hc), Hg. reflexivity.
  - intros o Hc Hg. rewrite (Hb Hc), Hg. eexists. split; [reflexivity|].
    rewrite run_cbs_quiet. unfold sendToAll. rewrite fold_send_all. simpl.
    split; [apply get_delete_same|]. split; [|split; reflexivity].
    intros u' Hu'. unfold get_obj. apply get_delete_other. apply String.eqb_neq. exact Hu'.
Qed.

Definition host_synced : Net :=
  mkNet true (Some "h") true 15 true false [] [] [("a", mkConn 0 "a" true true)]
    [] [("u", JNum 1); ("v", JNum 2)] [(0, 0%Z)] [0] [] 1 [] [].

Lemma unsync_effect_witness :
  unsync no_effect "w" host_synced = Ret host_synced /\
  exists n', unsync no_effect "u" host_synced = Ret n' /\
    n'.(syncedObjects) = [("v", JNum 2)] /\ n'.(outbox) = [(0, MUnsync "u")].
Proof.
  destruct (unsync_effect no_effect "w" host_synced) as (_ & H2 & _).
  destruct (unsync_effect no_effect "u" host_synced) as (_ & _ & H3).
  split; [exact (H2 (or_introl eq_refl) eq_refl)|].
  destruct (H3 (JNum 1) (or_introl eq_refl) eq_refl) as (n' & Hr & _ & _ & Ho & _).
  exists n'. split; [exact Hr|]. split.
  - rewrite Hr in *. clear Ho. unfold unsync in Hr. simpl in Hr. injection Hr as <-. reflexivity.
  - rewrite Ho. reflexivity.
Defined.

(** X8: On a hosting Network, [syncObject] of a plain object under a fresh
    uuid followed by [unsync] of that uuid gives back the table of synced
    objects it started with; each entry of the connection table has
    received the NEWSYNC and then the UNSYNC. *)
Theorem sync_unsync_roundtrip :
  forall (u : string) (ps : list (string * Json)) (n : Net),
  n.(isHosting) = true -> get_obj u n.(syncedObjects) = None ->
  let n' := state_of (unsync no_effect u (state_of (syncObject no_effect u (JObj ps) n))) in
  n'.(syncedObjects) = n.(syncedObjects) /\
  n'.(connections) = n.(connections) /\
  n'.(outbox) = n.(outbox) ++ map (fun kc => ((snd kc).(cid), MNewSync u (JObj ps))) n.(connections)
                           ++ map (fun kc => ((snd kc).(cid), MUnsync u)) n.(connections).
Proof.
  intros u ps n Hh Hu n'. unfold n', syncObject. rewrite Hh. simpl.
  rewrite run_cbs_quiet. unfold sendToAll. rewrite fold_send_all. simpl.
  unfold unsync. simpl. rewrite Hh. simpl. unfold get_obj. rewrite get_set_same.
  rewrite run_cbs_quiet. unfold sendToAll. rewrite fold_send_all. simpl.
  split; [apply delete_set_absent; exact Hu|]. split; [reflexivity|].
  rewrite <- app_assoc. reflexivity.
Qed.

Lemma sync_unsync_roundtrip_witness :
  (state_of (unsync no_effect "w" (state_of (syncObject no_effect "w" (JObj []) host_synced)))).(syncedObjects)
  = [("u", JNum 1); ("v", JNum 2)].
Proof.
  destruct (sync_unsync_roundtrip "w" [] host_synced eq_refl eq_refl) as [H _].
  rewrite H. reflexivity.
Defined.

Lemma closeConnection_lists (p : string) (m : Net) :
  (closeConnection p m).(whitelist) = m.(whitelist) /\
  (closeConnection p m).(blacklist) = m.(blacklist).
Proof. unfold closeConnection. destruct (get_conn p (connections m)); split; reflexivity. Qed.

(** X9: [allow(id)] followed by [deny(id)], for an id the whitelist does not
    hold, gives back the whitelist; on a hosting Network with the whitelist
    in use it also closes the connection of [id]. *)
Theorem allow_deny_roundtrip :
  forall (p : string) (n : Net),
  includes p n.(whitelist) = false ->
  (deny p (allow p n)).(whitelist) = n.(whitelist) /\
  (keys_ok n.(connections) -> n.(useWhitelist) && n.(isHosting) = true ->
     get_conn p (deny p (allow p n)).(connections) = None).
Proof.
  intros p n Hp. unfold deny. simpl. split.
  - destruct (useWhitelist n && isHosting n);
      [rewrite (proj1 (closeConnection_lists _ _))|]; simpl;
      apply remove_first_app_absent; exact Hp.
  - intros Hk Hb. rewrite Hb. apply closeConnection_gone. exact Hk.
Qed.

Lemma allow_deny_roundtrip_witness :
  (deny "x" (allow "x" (host_x true))).(whitelist) = ["x"] /\
  (deny "y" (allow "y" (host_x true))).(whitelist) = ["x"].
Proof.
  split.
  - reflexivity.
  - apply (allow_deny_roundtrip "y" (host_x true) eq_refl).
Defined.

(** X10: [ban(id)] followed by [unban(id)], for an id the blacklist does not
    hold, gives back the blacklist, but the connection [ban] closed stays
    closed: the table holds no entry for [id]. *)
Theorem ban_unban_roundtrip :
  forall (p : string) (n : Net),
  includes p n.(blacklist) = false -> keys_ok n.(connections) ->
  (unban p (ban p n)).(blacklist) = n.(blacklist) /\
  get_conn p (unban p (ban p n)).(connections) = None.
Proof.
  intros p n Hp Hk. unfold unban, ban. split.
  - simpl. rewrite (proj2 (closeConnection_lists _ _)). simpl.
    apply remove_first_app_absent; exact Hp.
  - simpl. apply (closeConnection_gone p (upd_blacklist (fun b => b ++ [p]) n)). exact Hk.
Qed.

Lemma ban_unban_roundtrip_witness :
  (unban "x" (ban "x" (host_x true))).(blacklist) = [] /\
  get_conn "x" (unban "x" (ban "x" (host_x true))).(connections) = None.
Proof.
  apply (ban_unban_roundtrip "x" (host_x true) eq_refl). repeat constructor.
Defined.

Lemma clean_intervals_out (c : Conn) (m : Net) :
  existsb (Nat.eqb c.(cid)) (clean c m).(intervals) = false.
Proof.
  simpl. apply existsb_filter_out. rewrite Nat.eqb_refl. reflexivity.
Qed.

Lemma length_set_present {V : Type} (k : string) (v : V) (m : list (string * V)) :
  JsMap.get String.eqb k m <> None ->
  List.length (JsMap.set String.eqb k v m) = List.length m.
Proof.
  induction m as [|[k0 v0] m IH]; simpl; intros H; [contradiction|].
  destruct (String.eqb k k0) eqn:E; simpl; [reflexivity|].
  f_equal. apply IH. exact H.
Qed.

(** X11: The string sentinels of [#data], after the timer reset: [Network$CLOSE]
    removes the entry of the connection from the table and answers with a
    [Network$CLOSE] of its own; [Network$IAMHERE] changes nothing but the
    timer; [Network$CONFIRM] runs CLIENT_P2P_CONFIRMED_CONNECTION on an
    initiator, and on a receiver it is handed to the HOST_P2P_RECEIVED_DATA
    callbacks as ordinary data. *)
Theorem data_sentinels :
  forall (c : Conn) (now : Z) (n : Net),
  let n0 := timer_reset c now n in
  data no_effect c (MStr "Network$CLOSE") now n = Ret (cleanclose c n0) /\
  get_conn c.(cpeer) (cleanclose c n0).(connections) = None /\
  (cleanclose c n0).(outbox) = n.(outbox) ++ [(c.(cid), MStr "Network$CLOSE")] /\
  data no_effect c (MStr "Network$IAMHERE") now n = Ret n0 /\
  data no_effect c (MStr "Network$CONFIRM") now n =
    Ret (if c.(creceiver)
         then upd_fired (fun l => l ++ map (fun h => (h, HOST_P2P_RECEIVED_DATA, AData (MStr "Network$CONFIRM")))
                                    (getCallbacks HOST_P2P_RECEIVED_DATA n)) n0
         else upd_fired (fun l => l ++ map (fun h => (h, CLIENT_P2P_CONFIRMED_CONNECTION, ANone))
                                    (getCallbacks CLIENT_P2P_CONFIRMED_CONNECTION n)) n0).
Proof.
  intros c now n n0. split; [reflexivity|]. split; [apply get_delete_same|].
  split; [reflexivity|]. split; [reflexivity|].
  unfold data, classify, received. simpl. destruct (creceiver c); simpl;
    rewrite run_cbs_quiet; reflexivity.
Qed.

(** X12: A NEWSYNC for a uuid the Network already holds changes nothing but the
    timer. For a new uuid carrying a plain object, the object is stored and
    the CLIENT_P2P_SYNCED_DATA callbacks run with [(uuid, object)], on a host
    as on a client; nothing is sent, so a host does not pass it on to its
    other clients. For a new uuid carrying a primitive or null, [new Proxy]
    throws a TypeError after the timer reset and nothing is stored. *)
Theorem data_newsync :
  forall (c : Conn) (u : string) (o : Json) (now : Z) (n : Net),
  (has_obj u n.(syncedObjects) = true ->
     data no_effect c (MNewSync u o) now n = Ret (timer_reset c now n)) /\
  (forall ps, o = JObj ps -> has_obj u n.(syncedObjects) = false ->
     exists n', data no_effect c (MNewSync u o) now n = Ret n' /\
       get_obj u n'.(syncedObjects) = Some o /\
       n'.(outbox) = n.(outbox) /\ n'.(connections) = n.(connections) /\
       n'.(fired) = n.(fired) ++
         map (fun h => (h, CLIENT_P2P_SYNCED_DATA, AUuidObj u o)) (getCallbacks CLIENT_P2P_SYNCED_DATA n)) /\
  ((forall ps, o <> JObj ps) -> has_obj u n.(syncedObjects) = false ->
     data no_effect c (MNewSync u o) now n = Raise "TypeError" (timer_reset c now n)).
Proof.
  intros c u o now n. unfold data, classify.
  change (syncedObjects (timer_reset c now n)) with (syncedObjects n).
  split; [|split].
  - intros H; rewrite H; reflexivity.
  - intros ps Ho H; rewrite H, Ho.
    eexists. split; [reflexivity|]. rewrite <- Ho. rewrite run_cbs_quiet. simpl.
    split; [apply get_set_same|]. auto.
  - intros Ho H; rewrite H.
    destruct o as [| | | | |ps]; try reflexivity.
    exfalso. exact (Ho ps eq_refl).
Qed.

Definition client_a : Net :=
  mkNet true (Some "c") false 15 true true [] [] [("h", mkConn 0 "h" false false)]
    [(CLIENT_P2P_SYNCED_DATA, 5); (CLIENT_P2P_UNSYNCED_DATA, 6)]
    [("u", JObj [("a", JNum 1)])] [(0, 0%Z)] [0] [] 1 [] [].

Lemma data_newsync_witness :
  data no_effect (mkConn 0 "h" false false) (MNewSync "u" (JObj [])) 10 client_a =
    Ret (timer_reset (mkConn 0 "h" false false) 10 client_a) /\
  (exists n', data no_effect (mkConn 0 "h" false false) (MNewSync "w" (JObj [("b", JNum 2)])) 10 client_a = Ret n' /\
    n'.(fired) = [(5, CLIENT_P2P_SYNCED_DATA, AUuidObj "w" (JObj [("b", JNum 2)]))]) /\
  data no_effect (mkConn 0 "h" false false) (MNewSync "w" JNull) 10 client_a =
    Raise "TypeError" (timer_reset (mkConn 0 "h" false false) 10 client_a).
Proof.
  destruct (data_newsync (mkConn 0 "h" false false) "u" (JObj []) 10 client_a) as (H1 & _).
  destruct (data_newsync (mkConn 0 "h" false false) "w" (JObj [("b", JNum 2)]) 10 client_a) as (_ & H2 & _).
  destruct (data_newsync (mkConn 0 "h" false false) "w" JNull 10 client_a) as (_ & _ & H3).
  split; [exact (H1 eq_refl)|]. split.
  - destruct (H2 _ eq_refl eq_refl) as (n' & Hr & _ & _ & _ & Hf).
    exists n'. split; [exact Hr | rewrite Hf; reflexivity].
  - apply H3; [intros ps; discriminate | reflexivity].
Defined.

(** X13: An UNSYNC for a uuid the Network does not hold changes nothing but the
    timer. For a uuid it holds, that uuid alone is removed and the
    CLIENT_P2P_UNSYNCED_DATA callbacks run with the removed object; nothing
    is sent. *)
Theorem data_unsync :
  forall (c : Conn) (u : string) (now : Z) (n : Net),
  (get_obj u n.(syncedObjects) = None ->
     data no_effect c (MUnsync u) now n = Ret (timer_reset c now n)) /\
  (forall o, get_obj u n.(syncedObjects) = Some o ->
     exists n', data no_effect c (MUnsync u) now n = Ret n' /\
       get_obj u n'.(syncedObjects) = None /\
       (forall u', u' <> u -> get_obj u' n'.(syncedObjects) = get_obj u' n.(syncedObjects)) /\
       n'.(outbox) = n.(outbox) /\
       n'.(fired) = n.(fired) ++
         map (fun h => (h, CLIENT_P2P_UNSYNCED_DATA, AObj o)) (getCallbacks CLIENT_P2P_UNSYNCED_DATA n)).
Proof.
  intros c u now n. unfold data, classify.
  change (syncedObjects (timer_reset c now n)) with (syncedObjects n).
  split; [intros H; rewrite H; reflexivity|].
  intros o H. rewrite H. eexists. split; [reflexivity|]. rewrite run_cbs_quiet. simpl.
  split; [apply get_delete_same|]. split; [|auto].
  intros u' Hu'. unfold get_obj. apply get_delete_other. apply String.eqb_neq. exact Hu'.
Qed.

Lemma data_unsync_witness :
  data no_effect (mkConn 0 "h" false false) (MUnsync "w") 10 client_a =
    Ret (timer_reset (mkConn 0 "h" false false) 10 client_a) /\
  exists n', data no_effect (mkConn 0 "h" false false) (MUnsync "u") 10 client_a = Ret n' /\
    n'.(syncedObjects) = [] /\
    n'.(fired) = [(6, CLIENT_P2P_UNSYNCED_DATA, AObj (JObj [("a", JNum 1)]))].
Proof.
  destruct (data_unsync (mkConn 0 "h" false false) "w" 10 client_a) as (H1 & _).
  destruct (data_unsync (mkConn 0 "h" false false) "u" 10 client_a) as (_ & H2).
  split; [exact (H1 eq_refl)|].
  destruct (H2 _ eq_refl) as (n' & Hr & _ & _ & _ & Hf).
  exists n'. split; [exact Hr|]. split; [|rewrite Hf; reflexivity].
  unfold data, classify in Hr. simpl in Hr. injection Hr as <-. reflexivity.
Defined.

(** X14: A CHANGESYNC with an empty path on a tracked object writes the value
    under the key "undefined" of that object ([path.pop()] of an empty
    array); a receiver then relays the message to every other entry of the
    table. *)
Theorem changesync_empty_path :
  forall (c : Conn) (u : string) (ps : list (string * Json)) (v : Json) (now : Z) (n : Net),
  get_obj u n.(syncedObjects) = Some (JObj ps) ->
  exists n', data no_effect c (MChangeSync u [] v) now n = Ret n' /\
    get_obj u n'.(syncedObjects) = Some (JObj (JsMap.set String.eqb "undefined" v ps)) /\
    n'.(outbox) = n.(outbox) ++
      (if c.(creceiver)
       then map (fun kc => ((snd kc).(cid), MChangeSync u [] v))
              (filter (fun kc => negb (String.eqb (fst kc) c.(cpeer))) n.(connections))
       else []).
Proof.
  intros c u ps v now n H. unfold data, classify.
  change (syncedObjects (timer_reset c now n)) with (syncedObjects n). rewrite H. simpl.
  destruct (creceiver c).
  - eexists. split; [reflexivity|]. rewrite run_cbs_quiet. unfold sendToAllExcept.
    rewrite fold_send_except. simpl. split; [apply get_set_same | reflexivity].
  - eexists. split; [reflexivity|]. rewrite run_cbs_quiet. simpl.
    split; [apply get_set_same | symmetry; apply app_nil_r].
Qed.

Lemma changesync_empty_path_witness :
  exists n', data no_effect (mkConn 0 "h" false false) (MChangeSync "u" [] (JNum 2)) 10 client_a = Ret n' /\
    n'.(syncedObjects) = [("u", JObj [("a", JNum 1); ("undefined", JNum 2)])].
Proof.
  destruct (changesync_empty_path (mkConn 0 "h" false false) "u" [("a", JNum 1)] (JNum 2) 10 client_a eq_refl)
    as (n' & Hr & _ & _).
  exists n'. split; [exact Hr|].
  unfold data, classify in Hr. simpl in Hr. injection Hr as <-. reflexivity.
Defined.

(** X15: A CHANGESYNC on a tracked plain object raises a TypeError, with no
    relay and no callback, when its path has at least two keys and its first
    key is neither an own property of the object nor a property it inherits
    from [Object.prototype]: the descent reads [undefined] and the next
    access throws. *)
Theorem changesync_bad_path_raises :
  forall (eff : nat -> NetworkEvent -> CbArgs -> Net -> Net) (c : Conn) (u : string)
         (v : Json) (now : Z) (n : Net) ps k k2 rest,
  get_obj u n.(syncedObjects) = Some (JObj ps) ->
  JsMap.get String.eqb k ps = None ->
  ~ In k object_prototype_keys ->
  data eff c (MChangeSync u (k :: k2 :: rest) v) now n = Raise "TypeError" (timer_reset c now n).
Proof.
  intros eff c u v now n ps k k2 rest H Hk _. unfold data, classify.
  change (syncedObjects (timer_reset c now n)) with (syncedObjects n).
  rewrite H. simpl. rewrite Hk. destruct rest; reflexivity.
Qed.

Lemma changesync_bad_path_raises_witness :
  JsMap.get String.eqb "b" [("a", JNum 1)] = None /\ ~ In "b" object_prototype_keys /\
  data no_effect (mkConn 0 "h" false false) (MChangeSync "u" ["b"; "c"] (JNum 2)) 10 client_a =
    Raise "TypeError" (timer_reset (mkConn 0 "h" false false) 10 client_a).
Proof.
  split; [reflexivity|]. split; [simpl; intuition discriminate|].
  apply (changesync_bad_path_raises no_effect (mkConn 0 "h" false false) "u" (JNum 2) 10 client_a
           [("a", JNum 1)] "b" "c" [] eq_refl eq_refl).
  simpl. intuition discriminate.
Defined.

(** X16: Once a connection has been closed, by [cleanclose()] or by its
    transport [close] event, its interval is cleared: a later tick of it
    changes nothing. *)
Theorem tick_after_close_inert :
  forall (eff : nat -> NetworkEvent -> CbArgs -> Net -> Net) (c : Conn) (t : Z) (n : Net),
  step eff (EvTick c t) (cleanclose c n) = cleanclose c n /\
  step eff (EvTick c t) (close_ eff c n) = close_ eff c n.
Proof.
  intros eff c t n. split; unfold step.
  - change ((cleanclose c n).(intervals)) with ((clean c n).(intervals)).
    rewrite clean_intervals_out. reflexivity.
  - unfold close_. rewrite clean_intervals_out. reflexivity.
Qed.

(** X17: The grace close scheduled by [close()] runs at most once for a
    connection: when the callbacks leave the grace queue alone, a second
    grace event of the same connection changes nothing. *)
Theorem grace_fires_once :
  forall (eff : nat -> NetworkEvent -> CbArgs -> Net -> Net),
  (forall h ev a m, (eff h ev a m).(graceq) = m.(graceq)) ->
  forall (c : Conn) (n : Net),
  step eff (EvGrace c) (step eff (EvGrace c) n) = step eff (EvGrace c) n.
Proof.
  intros eff He c n. cbv beta in He. unfold step at 2 3.
  destruct (existsb (Nat.eqb (cid c)) (graceq n)) eqn:E.
  - unfold step. unfold close_ at 1.
    change ((clean c (run_cbs eff (if creceiver c then HOST_P2P_CLOSED else CLIENT_P2P_CLOSED) ANone
               (upd_graceq (filter (fun i => negb (Nat.eqb i (cid c)))) n))).(graceq))
      with ((run_cbs eff (if creceiver c then HOST_P2P_CLOSED else CLIENT_P2P_CLOSED) ANone
               (upd_graceq (filter (fun i => negb (Nat.eqb i (cid c)))) n)).(graceq)).
    rewrite (run_cbs_graceq eff He). simpl. rewrite existsb_filter_out; [reflexivity|].
    rewrite Nat.eqb_refl. reflexivity.
  - unfold step. rewrite E. reflexivity.
Qed.

Lemma grace_fires_once_witness :
  step no_effect (EvGrace (mkConn 0 "a" true true))
    (step no_effect (EvGrace (mkConn 0 "a" true true)) (closeAllConnections host_two)) =
  step no_effect (EvGrace (mkConn 0 "a" true true)) (closeAllConnections host_two).
Proof.
  apply (grace_fires_once no_effect (fun _ _ _ _ => eq_refl)).
Defined.

(** X18: A second inbound connection from a peer id the table already holds
    replaces the table entry (the table does not grow) but does not close
    the old connection: its interval keeps running, and once its timer is
    more than 6000 ms old its tick removes the entry of the NEW connection. *)
Theorem inbound_replaces_entry :
  forall (c : Conn) (t now : Z) (n : Net),
  get_conn c.(cpeer) n.(connections) = Some c ->
  existsb (Nat.eqb c.(cid)) n.(intervals) = true ->
  c.(cid) < n.(nextCid) ->
  (6000 < t - timer_begin c n)%Z ->
  let n1 := on_connection no_effect c.(cpeer) now n in
  get_conn c.(cpeer) n1.(connections) = Some (mkConn n.(nextCid) c.(cpeer) true false) /\
  List.length n1.(connections) = List.length n.(connections) /\
  existsb (Nat.eqb c.(cid)) n1.(intervals) = true /\
  get_conn c.(cpeer) (step no_effect (EvTick c t) n1).(connections) = None.
Proof.
  intros c t now n Hg Hi Hlt Ht n1.
  assert (E1 : n1 = upd_fired (fun l => l ++ map (fun h => (h, PEER_CONNECTION,
                       AConn (mkConn n.(nextCid) c.(cpeer) true false))) (getCallbacks PEER_CONNECTION n))
                 (upd_connections (JsMap.set String.eqb c.(cpeer) (mkConn n.(nextCid) c.(cpeer) true false))
                   (snd (newConn c.(cpeer) true now n)))).
  { unfold n1, on_connection. simpl. rewrite run_cbs_quiet. reflexivity. }
  assert (Hint : existsb (Nat.eqb c.(cid)) n1.(intervals) = true).
  { rewrite E1. simpl. rewrite existsb_app, Hi. reflexivity. }
  split; [|split; [|split; [exact Hint|]]].
  - rewrite E1. apply get_set_same.
  - rewrite E1. simpl. apply length_set_present. unfold get_conn in Hg. rewrite Hg. discriminate.
  - unfold step. rewrite Hint. unfold timeout.
    assert (Hb : timer_begin c n1 = timer_begin c n).
    { rewrite E1. unfold timer_begin. simpl. rewrite get_set_other_nat; [reflexivity|].
      apply Nat.eqb_neq. lia. }
    rewrite Hb. destruct (Z.ltb_spec 6000 (t - timer_begin c n)); [|lia].
    apply get_delete_same.
Qed.

Definition host_a : Net :=
  mkNet true (Some "h") true 15 true false [] [] [("a", mkConn 0 "a" true true)]
    [] [] [(0, 0%Z)] [0] [] 1 [] [].

Lemma inbound_replaces_entry_witness :
  get_conn "a" (step no_effect (EvTick (mkConn 0 "a" true true) 7000)
                  (on_connection no_effect "a" 6500 host_a)).(connections) = None.
Proof.
  destruct (inbound_replaces_entry (mkConn 0 "a" true true) 7000 6500 host_a
              eq_refl eq_refl ltac:(simpl; lia) ltac:(vm_compute; reflexivity)) as (_ & _ & _ & H).
  exact H.
Defined.

(** X19: With [maxClient] at most 1, a host rejects every inbound connection at
    [#open] while its table entry is present, since the table then already
    counts it: [#open] runs [cleanclose()] and no HOST_P2P_OPENED
    callback. *)
Theorem small_maxClient_rejects :
  forall (eff : nat -> NetworkEvent -> CbArgs -> Net -> Net) (c : Conn) (n : Net),
  n.(maxClient) <= 1 -> c.(creceiver) = true -> In (c.(cpeer), c) n.(connections) ->
  open_ eff c n = cleanclose c n.
Proof.
  intros eff c n Hm Hr Hin. unfold open_. rewrite Hr.
  assert (Hf : isFull n = true).
  { unfold isFull. apply Nat.leb_le. destruct (connections n) as [|x l]; [contradiction|].
    simpl. lia. }
  unfold rejected. rewrite Hf, orb_true_r. reflexivity.
Qed.

Lemma small_maxClient_rejects_witness :
  open_ no_effect (mkConn 0 "a" true true) (upd_maxClient (fun _ => 1) host_a) =
  cleanclose (mkConn 0 "a" true true) (upd_maxClient (fun _ => 1) host_a).
Proof.
  apply small_maxClient_rejects; simpl; [lia | reflexivity |].
  left. reflexivity.
Defined.
End NetworkFacts.

(** * Properties of the change-tracking proxies *)
Module ProxyFacts.
Import Proxy.

(** The plain objects met when following [ks] from the plain object [l]
    (each property holding a plain object), and the last one. *)
Fixpoint walk (h : list (list (string * Val))) (l : nat) (ks : list string)
    : option (list nat * nat) :=
  match ks with
  | [] => Some ([], l)
  | k :: r =>
      match nth_error h l with
      | Some ps =>
          match JsMap.get String.eqb k ps with
          | Some (VRef (RObj l')) => option_map (fun vl => (l' :: fst vl, snd vl)) (walk h l' r)
          | _ => None
          end
      | None => None
      end
  end.

(** [{a: {b: 1}}]: object 0 holds [a], object 1 holds [b]. *)
Definition ab_rt : Rt := mkRt [[("a", VRef (RObj 1))]; [("b", VNum 1)]] [] [] [].

(** [{a: {x: 0}}] *)
Definition ax_rt : Rt := mkRt [[("a", VRef (RObj 1))]; [("x", VNum 0)]] [] [] [].

(** [p = proxyfy(v, cb)]; [p.b = unproxyfy(p.a)]; [p.a = 0]; [p.b.x = 1]. *)
Definition alias_scenario : option Rt :=
  let (k0, rt1) := proxyfy 0 7 None [] ax_rt in
  match read_chain (VRef (RPrx k0)) ["a"] rt1 with
  | Some (pa, rt2) =>
      match set_val (VRef (RPrx k0)) "b" (unproxyfy pa rt2) rt2 with
      | Some rt3 =>
          match set_val (VRef (RPrx k0)) "a" (VNum 0) rt3 with
          | Some rt4 => assign (VRef (RPrx k0)) ["b"] "x" (VNum 1) rt4
          | None => None
          end
      | None => None
      end
  | None => None
  end.

Lemma ref_eqb_eq (a b : Ref) : ref_eqb a b = true <-> a = b.
Proof.
  destruct a as [x|x], b as [y|y]; simpl; split; intros H; try discriminate;
    try (apply Nat.eqb_eq in H; congruence);
    try (injection H as ->; apply Nat.eqb_refl).
Qed.

Lemma get_set_same_ref {V : Type} (k : Ref) (v : V) (m : list (Ref * V)) :
  JsMap.get ref_eqb k (JsMap.set ref_eqb k v m) = Some v.
Proof.
  assert (Hr : ref_eqb k k = true) by (apply ref_eqb_eq; reflexivity).
  induction m as [|[k' v'] m IH]; simpl.
  - rewrite Hr. reflexivity.
  - destruct (ref_eqb k k') eqn:E; simpl; rewrite E; [reflexivity | exact IH].
Qed.

Lemma get_set_other_ref {V : Type} (a b : Ref) (v : V) (m : list (Ref * V)) :
  ref_eqb a b = false ->
  JsMap.get ref_eqb a (JsMap.set ref_eqb b v m) = JsMap.get ref_eqb a m.
Proof.
  intros Hab. induction m as [|[k' v'] m IH]; simpl.
  - rewrite Hab. reflexivity.
  - destruct (ref_eqb b k') eqn:E; simpl.
    + apply ref_eqb_eq in E. subst k'. rewrite Hab. reflexivity.
    + destruct (ref_eqb a k'); [reflexivity | exact IH].
Qed.

Lemma nth_error_replace_nth_other {A : Type} (i j : nat) (x : A) (l : list A) :
  i <> j -> nth_error (replace_nth i x l) j = nth_error l j.
Proof.
  revert i j. induction l as [|y l IH]; intros i j Hij;
    destruct i as [|i], j as [|j]; simpl; try reflexivity; try lia.
  apply IH. lia.
Qed.

Lemma nth_error_replace_nth_same {A : Type} (i : nat) (x y : A) (l : list A) :
  nth_error l i = Some y -> nth_error (replace_nth i x l) i = Some x.
Proof.
  revert i. induction l as [|z l IH]; intros i H; destruct i as [|i]; simpl in *;
    try discriminate; [reflexivity | apply IH; exact H].
Qed.

Lemma read_chain_app (v : Val) (ks1 ks2 : list string) (rt : Rt) :
  read_chain v (ks1 ++ ks2) rt =
  match read_chain v ks1 rt with Some (w, rt') => read_chain w ks2 rt' | None => None end.
Proof.
  revert v rt. induction ks1 as [|k ks1 IH]; intros v rt; simpl; [reflexivity|].
  destruct (get_val v k rt) as [[w rt']|]; [apply IH | reflexivity].
Qed.

Lemma walk_last (h : list (list (string * Val))) (ks : list string) :
  forall l vis lf, walk h l ks = Some (vis, lf) -> (vis = [] /\ lf = l) \/ In lf vis.
Proof.
  induction ks as [|k r IH]; intros l vis lf Hw; simpl in Hw.
  - injection Hw as <- <-. left. split; reflexivity.
  - destruct (nth_error h l) as [ps|]; [|discriminate].
    destruct (JsMap.get String.eqb k ps) as [[| | | | |[l1|]]|]; try discriminate.
    destruct (walk h l1 r) as [[vis' lf']|] eqn:Ew; simpl in Hw; [|discriminate].
    injection Hw as <- <-. right.
    destruct (IH l1 vis' lf' Ew) as [[-> ->]|Hin]; [left; reflexivity | right; exact Hin].
Qed.

(** Plain reads follow the walk and change nothing. *)
Lemma read_chain_plain (ks : list string) :
  forall l vis lf rt, walk rt.(heap) l ks = Some (vis, lf) ->
  read_chain (VRef (RObj l)) ks rt = Some (VRef (RObj lf), rt).
Proof.
  induction ks as [|k r IH]; intros l vis lf rt Hw; simpl in Hw |- *.
  - injection Hw as _ <-. reflexivity.
  - unfold prop. destruct (nth_error (heap rt) l) as [ps|]; [|discriminate]. simpl.
    destruct (JsMap.get String.eqb k ps) as [[| | | | |[l1|]]|]; try discriminate.
    destruct (walk (heap rt) l1 r) as [[vis' lf']|] eqn:Ew; simpl in Hw; [|discriminate].
    injection Hw as <- <-. apply (IH l1 vis'). exact Ew.
Qed.

(** Writing the last object of a walk without repeated objects leaves the
    walk as it is. *)
Lemma walk_replace (v : list (string * Val)) (ks : list string) :
  forall h l vis lf, walk h l ks = Some (vis, lf) -> NoDup (l :: vis) ->
  walk (replace_nth lf v h) l ks = Some (vis, lf).
Proof.
  induction ks as [|k r IH]; intros h l vis lf Hw Hnd; [exact Hw|].
  simpl in Hw |- *.
  destruct (nth_error h l) as [ps|] eqn:Eh; [|discriminate].
  destruct (JsMap.get String.eqb k ps) as [[| | | | |[l1|]]|] eqn:Ek; try discriminate.
  destruct (walk h l1 r) as [[vis' lf']|] eqn:Ew; simpl in Hw; [|discriminate].
  injection Hw as <- <-.
  assert (Hl : l <> lf').
  { intros <-. apply NoDup_cons_iff in Hnd. destruct Hnd as [Hn _]. apply Hn.
    destruct (walk_last h r l1 vis' l Ew) as [[_ ->]|Hin]; [left; reflexivity | right; exact Hin]. }
  rewrite nth_error_replace_nth_other by (intros E; apply Hl; symmetry; exact E).
  rewrite Eh, Ek. rewrite (IH h l1 vis' lf' Ew); [reflexivity|].
  apply NoDup_cons_iff in Hnd. exact (proj2 Hnd).
Qed.

(** A plain object [l] met on a path through the tree is either not wrapped
    yet, or wrapped by a proxy whose target it is; [strict] asks in
    addition that this proxy has the given root, callback and path (the
    ones the object would get if it were wrapped now). *)
Definition wrap_ok (strict : bool) (rt : Rt) (root cb : nat) (path : list string) (l : nat)
    : Prop :=
  JsMap.get ref_eqb (RObj l) rt.(cache) = None \/
  exists j pj, JsMap.get ref_eqb (RObj l) rt.(cache) = Some (RPrx j) /\
    nth_error rt.(prx) j = Some pj /\ pj.(ptarget) = l /\
    (strict = true -> pj.(proot) = root /\ pj.(ponchange) = cb /\ pj.(ppath) = path).

Lemma wrap_ok_shift (strict : bool) (rt : Rt) (pr pj : PrxRec) (key : string)
    (P : list string) (l : nat) :
  (strict = true -> pj.(proot) = pr.(proot) /\ pj.(ponchange) = pr.(ponchange) /\
                    pj.(ppath) = pr.(ppath) ++ [key]) ->
  wrap_ok strict rt pr.(proot) pr.(ponchange) (pr.(ppath) ++ key :: P) l ->
  wrap_ok strict rt pj.(proot) pj.(ponchange) (pj.(ppath) ++ P) l.
Proof.
  intros Hs Hw. destruct strict.
  - destruct (Hs eq_refl) as (E1 & E2 & E3). rewrite E1, E2, E3, <- app_assoc. exact Hw.
  - destruct Hw as [Hw | (j & pj' & H1 & H2 & H3 & _)]; [left; exact Hw|].
    right. exists j, pj'. repeat split; try assumption; discriminate.
Qed.

Lemma wrap_ok_fresh (strict : bool) (rt : Rt) (root cb : nat) (path : list string)
    (l l1 : nat) (pr1 : PrxRec) :
  l <> l1 ->
  wrap_ok strict rt root cb path l ->
  wrap_ok strict
    (mkRt rt.(heap) (rt.(prx) ++ [pr1])
       (JsMap.set ref_eqb (RPrx (List.length rt.(prx))) (RObj l1)
          (JsMap.set ref_eqb (RObj l1) (RPrx (List.length rt.(prx))) rt.(cache))) rt.(calls))
    root cb path l.
Proof.
  intros Hne Hw. unfold wrap_ok. simpl.
  rewrite get_set_other_ref by reflexivity.
  rewrite get_set_other_ref by (simpl; apply Nat.eqb_neq; exact Hne).
  destruct Hw as [Hw | (j & pj & H1 & H2 & H3 & H4)]; [left; exact Hw|].
  right. exists j, pj. split; [exact H1|]. split; [|split; assumption].
  rewrite nth_error_app1; [exact H2|]. apply nth_error_Some. congruence.
Qed.

(** A read path through proxies: each object met is wrapped now, or was
    wrapped before; the proxy reached targets the last object, and under
    [strict] it has the root, callback and path [q]'s path ++ [ks]. *)
Lemma read_chain_gen (strict : bool) (ks : list string) :
  forall k pr rt vis lf,
  nth_error rt.(prx) k = Some pr ->
  walk rt.(heap) pr.(ptarget) ks = Some (vis, lf) ->
  NoDup vis ->
  (forall i l', nth_error vis i = Some l' ->
     wrap_ok strict rt pr.(proot) pr.(ponchange) (pr.(ppath) ++ firstn (S i) ks) l') ->
  exists k' pr' rt',
    read_chain (VRef (RPrx k)) ks rt = Some (VRef (RPrx k'), rt') /\
    nth_error rt'.(prx) k' = Some pr' /\ pr'.(ptarget) = lf /\
    (strict = true -> pr'.(proot) = pr.(proot) /\ pr'.(ponchange) = pr.(ponchange) /\
                      pr'.(ppath) = pr.(ppath) ++ ks) /\
    rt'.(heap) = rt.(heap) /\ rt'.(calls) = rt.(calls) /\
    (forall j, j < List.length rt.(prx) ->
       JsMap.get ref_eqb (RPrx j) rt'.(cache) = JsMap.get ref_eqb (RPrx j) rt.(cache)).
Proof.
  induction ks as [|key r IH]; intros k pr rt vis lf Hk Hw Hnd Hc.
  - simpl in Hw. injection Hw as <- <-. exists k, pr, rt.
    rewrite app_nil_r. repeat split; auto.
  - simpl in Hw.
    destruct (nth_error (heap rt) (ptarget pr)) as [ps|] eqn:Eh; [|discriminate].
    destruct (JsMap.get String.eqb key ps) as [[| | | | |[l1|]]|] eqn:Ek; try discriminate.
    destruct (walk (heap rt) l1 r) as [[vis' lf']|] eqn:Ew; simpl in Hw; [|discriminate].
    injection Hw as <- <-. apply NoDup_cons_iff in Hnd. destruct Hnd as [Hn1 Hnd].
    assert (Hc0 := Hc 0 l1 eq_refl). simpl in Hc0.
    assert (Hcr : forall i l', nth_error vis' i = Some l' ->
              wrap_ok strict rt (proot pr) (ponchange pr) (ppath pr ++ key :: firstn (S i) r) l').
    { intros i l' Hi. exact (Hc (S i) l' Hi). }
    change (read_chain (VRef (RPrx k)) (key :: r) rt) with
      (match get_val (VRef (RPrx k)) key rt with
       | None => None | Some (w, rt'') => read_chain w r rt'' end).
    destruct Hc0 as [Hnone | (j & pj & Hj1 & Hj2 & Hj3 & Hj4)].
    + (* first visit: the get trap wraps the object *)
      set (pr1 := mkPrx l1 (proot pr) (ppath pr ++ [key]) (ponchange pr)).
      set (k1 := List.length (prx rt)).
      set (rt1 := mkRt (heap rt) (prx rt ++ [pr1])
                    (JsMap.set ref_eqb (RPrx k1) (RObj l1)
                       (JsMap.set ref_eqb (RObj l1) (RPrx k1) (cache rt))) (calls rt)).
      assert (Hg : get_val (VRef (RPrx k)) key rt = Some (VRef (RPrx k1), rt1)).
      { simpl. rewrite Hk. unfold prop. rewrite Eh, Ek, Hnone. reflexivity. }
      assert (Hk1 : nth_error (prx rt1) k1 = Some pr1).
      { simpl. unfold k1. rewrite nth_error_app2, Nat.sub_diag; [reflexivity | lia]. }
      assert (Hc1 : forall i l', nth_error vis' i = Some l' ->
                wrap_ok strict rt1 (proot pr1) (ponchange pr1) (ppath pr1 ++ firstn (S i) r) l').
      { intros i l' Hi. apply wrap_ok_fresh.
        - intros ->. apply Hn1. eapply nth_error_In. exact Hi.
        - apply (wrap_ok_shift strict rt pr pr1 key); [intros _; repeat split|].
          exact (Hcr i l' Hi). }
      destruct (IH k1 pr1 rt1 vis' lf' Hk1 Ew Hnd Hc1)
        as (k' & pr' & rt' & Hr & Hp & Ht & Hs & Hh & Hca & Hjj).
      exists k', pr', rt'. rewrite Hg.
      split; [exact Hr|]. split; [exact Hp|]. split; [exact Ht|].
      split; [|split; [exact Hh|]; split; [exact Hca|]].
      * intros E. destruct (Hs E) as (E1 & E2 & E3). split; [exact E1|]. split; [exact E2|].
        rewrite E3. simpl. rewrite <- app_assoc. reflexivity.
      * intros j' Hjl. rewrite Hjj by (simpl; rewrite length_app; simpl; lia).
        simpl. rewrite get_set_other_ref by (simpl; apply Nat.eqb_neq; unfold k1; lia).
        apply get_set_other_ref. reflexivity.
    + (* already wrapped: the get trap hands back the cached proxy *)
      assert (Hg : get_val (VRef (RPrx k)) key rt = Some (VRef (RPrx j), rt)).
      { simpl. rewrite Hk. unfold prop. rewrite Eh, Ek, Hj1. reflexivity. }
      assert (Hs1 : strict = true -> proot pj = proot pr /\ ponchange pj = ponchange pr /\
                                      ppath pj = ppath pr ++ [key]).
      { intros E. destruct (Hj4 E) as (E1 & E2 & E3). auto. }
      assert (Hc1 : forall i l', nth_error vis' i = Some l' ->
                wrap_ok strict rt (proot pj) (ponchange pj) (ppath pj ++ firstn (S i) r) l').
      { intros i l' Hi. apply (wrap_ok_shift strict rt pr pj key); [exact Hs1|].
        exact (Hcr i l' Hi). }
      rewrite <- Hj3 in Ew.
      destruct (IH j pj rt vis' lf' Hj2 Ew Hnd Hc1)
        as (k' & pr' & rt' & Hr & Hp & Ht & Hs & Hh & Hca & Hjj).
      exists k', pr', rt'. rewrite Hg.
      split; [exact Hr|]. split; [exact Hp|]. split; [exact Ht|].
      split; [|split; [exact Hh|]; split; [exact Hca | exact Hjj]].
      intros E. destruct (Hs E) as (E1 & E2 & E3). destruct (Hs1 E) as (F1 & F2 & F3).
      split; [congruence|]. split; [congruence|].
      rewrite E3, F3, <- app_assoc. reflexivity.
Qed.

(** A write at the end of such a path: the [set] trap of the last proxy. *)
Lemma assign_gen (strict : bool) (ks : list string) (p : string) (x : Val) :
  forall k pr rt vis lf ps,
  nth_error rt.(prx) k = Some pr ->
  walk rt.(heap) pr.(ptarget) ks = Some (vis, lf) ->
  nth_error rt.(heap) lf = Some ps ->
  NoDup vis ->
  (forall i l', nth_error vis i = Some l' ->
     wrap_ok strict rt pr.(proot) pr.(ponchange) (pr.(ppath) ++ firstn (S i) ks) l') ->
  exists rt' cb root path,
    assign (VRef (RPrx k)) ks p x rt = Some rt' /\
    rt'.(calls) = rt.(calls) ++ [(cb, root, path ++ [p], x)] /\
    (strict = true -> cb = pr.(ponchange) /\ root = pr.(proot) /\ path = pr.(ppath) ++ ks) /\
    rt'.(heap) = replace_nth lf (JsMap.set String.eqb p x ps) rt.(heap) /\
    (forall j, j < List.length rt.(prx) ->
       JsMap.get ref_eqb (RPrx j) rt'.(cache) = JsMap.get ref_eqb (RPrx j) rt.(cache)).
Proof.
  intros k pr rt vis lf ps Hk Hw Hps Hnd Hc.
  destruct (read_chain_gen strict ks k pr rt vis lf Hk Hw Hnd Hc)
    as (k' & pr' & rt' & Hr & Hp & Ht & Hs & Hh & Hca & Hj).
  unfold assign. rewrite Hr. simpl. rewrite Hp. unfold write_prop.
  rewrite Ht, Hh, Hps. simpl.
  exists (mkRt (replace_nth lf (JsMap.set String.eqb p x ps) (heap rt)) (prx rt') (cache rt')
            (calls rt' ++ [(ponchange pr', proot pr', ppath pr' ++ [p], x)])),
         (ponchange pr'), (proot pr'), (ppath pr').
  split; [reflexivity|]. simpl. split; [rewrite Hca; reflexivity|]. split; [|split].
  - intros E. destruct (Hs E) as (E1 & E2 & E3). auto.
  - reflexivity.
  - exact Hj.
Qed.

(** C8 *)
(** C8 (as stated, false): the path of a nested proxy is fixed when its
    object is first wrapped, and [proxyCache] hands the same proxy back
    whatever key the object is later reached through. After [p.b =
    unproxyfy(p.a)] and [p.a = 0], the object is reachable only as [p.b],
    yet [p.b.x = 1] reports the path [["a"; "x"]]. *)
Lemma proxy_path_counterexample :
  option_map calls alias_scenario =
    Some [(7, 0, ["b"], VRef (RObj 1)); (7, 0, ["a"], VNum 0); (7, 0, ["a"; "x"], VNum 1)] /\
  option_map heap alias_scenario =
    Some [[("a", VNum 0); ("b", VRef (RObj 1))]; [("x", VNum 1)]].
Proof. split; reflexivity. Qed.

(** C8 (amended): for [proxy = proxyfy({a:{b:1}}, cb)], [proxy.a.b = 2]
    writes 2 at [b] of the inner plain object and calls [cb] once, with
    root the outer object, path [["a"; "b"]] and value 2. In general, a
    write [q.k1...kn[p] = x] through a proxy [q] of the tree, along an
    acyclic path of plain objects each of which is either not wrapped yet
    or was wrapped under this same root, callback and path (as by an
    earlier access along the same keys), with [p] not [__proto__], writes
    [x] at [p] of the plain object the keys lead to and calls the callback
    exactly once, with the root and with [q]'s path followed by [k1...kn]
    and [p]. *)
Theorem proxy_write_path :
  (exists rt',
     assign (VRef (RPrx (fst (proxyfy 0 7 None [] ab_rt)))) ["a"] "b" (VNum 2)
       (snd (proxyfy 0 7 None [] ab_rt)) = Some rt' /\
     rt'.(calls) = [(7, 0, ["a"; "b"], VNum 2)] /\
     rt'.(heap) = [[("a", VRef (RObj 1))]; [("b", VNum 2)]]) /\
  (forall rt k pr ks p x vis lf ps,
     nth_error rt.(prx) k = Some pr ->
     walk rt.(heap) pr.(ptarget) ks = Some (vis, lf) ->
     nth_error rt.(heap) lf = Some ps ->
     NoDup vis ->
     (forall i l', nth_error vis i = Some l' ->
        wrap_ok true rt pr.(proot) pr.(ponchange) (pr.(ppath) ++ firstn (S i) ks) l') ->
     p <> "__proto__" ->
     exists rt',
       assign (VRef (RPrx k)) ks p x rt = Some rt' /\
       rt'.(calls) = rt.(calls) ++ [(pr.(ponchange), pr.(proot), pr.(ppath) ++ ks ++ [p], x)] /\
       rt'.(heap) = replace_nth lf (JsMap.set String.eqb p x ps) rt.(heap)).
Proof.
  split.
  - eexists. split; [reflexivity | split; reflexivity].
  - intros rt k pr ks p x vis lf ps Hk Hw Hps Hnd Hc _.
    destruct (assign_gen true ks p x k pr rt vis lf ps Hk Hw Hps Hnd Hc)
      as (rt' & cb & root & path & H1 & H2 & H3 & H4 & _).
    destruct (H3 eq_refl) as (-> & -> & ->).
    exists rt'. split; [exact H1|]. split; [|exact H4].
    rewrite H2, <- app_assoc. reflexivity.
Qed.

(** The state after [proxy.a.b = 2] on [proxyfy({a:{b:1}}, 7)]: the inner
    object is now wrapped, under the path [["a"]]. *)
Definition ab_written : Rt :=
  mkRt [[("a", VRef (RObj 1))]; [("b", VNum 2)]]
    [mkPrx 0 0 [] 7; mkPrx 1 0 ["a"] 7]
    [(RObj 0, RPrx 0); (RPrx 0, RObj 0); (RObj 1, RPrx 1); (RPrx 1, RObj 1)]
    [(7, 0, ["a"; "b"], VNum 2)].

Lemma ab_written_wrap (strict : bool) :
  forall i l', nth_error [1] i = Some l' ->
  wrap_ok strict ab_written 0 7 ([] ++ firstn (S i) ["a"]) l'.
Proof.
  intros [|i] l' H; [|destruct i; discriminate].
  injection H as <-. right. exists 1, (mkPrx 1 0 ["a"] 7).
  repeat split; reflexivity.
Qed.

(** The second write [proxy.a.b = 3], through the now cached inner proxy,
    reports [["a"; "b"]] again. *)
Lemma proxy_write_path_witness :
  assign (VRef (RPrx 0)) ["a"] "b" (VNum 2) (snd (proxyfy 0 7 None [] ab_rt)) = Some ab_written /\
  exists rt', assign (VRef (RPrx 0)) ["a"] "b" (VNum 3) ab_written = Some rt' /\
    rt'.(calls) = [(7, 0, ["a"; "b"], VNum 2); (7, 0, ["a"; "b"], VNum 3)] /\
    rt'.(heap) = [[("a", VRef (RObj 1))]; [("b", VNum 3)]].
Proof.
  split; [reflexivity|].
  destruct proxy_write_path as [_ Hg].
  destruct (Hg ab_written 0 (mkPrx 0 0 [] 7) ["a"] "b" (VNum 3) [1] 1 [("b", VNum 2)]
              eq_refl eq_refl eq_refl
              (NoDup_cons 1 (fun H : In 1 [] => H) (NoDup_nil nat))
              (ab_written_wrap true) ltac:(discriminate))
    as (rt' & H1 & H2 & H3).
  exists rt'. split; [exact H1|]. split; [rewrite H2; reflexivity | rewrite H3; reflexivity].
Defined.

(** C9 *)
(** C9 (as stated, false): [proxyCache] maps each wrapped plain object to
    its proxy as well, so [unproxyfy] of a plain object that has been
    wrapped is its proxy, not null. *)
Lemma unproxyfy_plain_counterexample :
  unproxyfy (VRef (RObj 0)) (snd (proxyfy 0 7 None [] ab_rt)) =
    VRef (RPrx (fst (proxyfy 0 7 None [] ab_rt))).
Proof. reflexivity. Qed.

(** C9 (amended): [unproxyfy(proxyfy(v, cb))] is [v] itself, with the heap
    unchanged. At any later state where that proxy still wraps [v], a write
    [proxy.k1...kn[p] = x] ([p] not [__proto__]) along an acyclic path of
    plain objects, each not wrapped yet or wrapped by a proxy of its own
    (first writes and repeated writes alike), is seen by reading
    [k1...kn, p] from [unproxyfy(proxy)]: the read gives [x]. [unproxyfy]
    gives null for a primitive and for an object that is neither a proxy
    nor a wrapped plain object (a wrapped plain object gives its proxy). *)
Theorem unproxyfy_roundtrip :
  forall (rt : Rt) (l cb k : nat) (rt1 : Rt),
  proxyfy l cb None [] rt = (k, rt1) ->
  unproxyfy (VRef (RPrx k)) rt1 = VRef (RObj l) /\
  rt1.(heap) = rt.(heap) /\
  nth_error rt1.(prx) k = Some (mkPrx l l [] cb) /\
  (forall rt' ks p x vis lf ps,
     nth_error rt'.(prx) k = Some (mkPrx l l [] cb) ->
     unproxyfy (VRef (RPrx k)) rt' = VRef (RObj l) ->
     walk rt'.(heap) l ks = Some (vis, lf) ->
     nth_error rt'.(heap) lf = Some ps ->
     NoDup (l :: vis) ->
     (forall i l', nth_error vis i = Some l' -> wrap_ok false rt' l cb (firstn (S i) ks) l') ->
     p <> "__proto__" ->
     exists rt2,
       assign (VRef (RPrx k)) ks p x rt' = Some rt2 /\
       read_chain (unproxyfy (VRef (RPrx k)) rt2) (ks ++ [p]) rt2 = Some (x, rt2)) /\
  (forall (v : Val) (rt' : Rt), (forall r, v <> VRef r) -> unproxyfy v rt' = VNull) /\
  (forall (r : Ref) (rt' : Rt), JsMap.get ref_eqb r rt'.(cache) = None ->
     unproxyfy (VRef r) rt' = VNull).
Proof.
  intros rt l cb k rt1 Hp. unfold proxyfy in Hp. injection Hp as <- <-.
  set (k := List.length (prx rt)).
  assert (Hu : unproxyfy (VRef (RPrx k))
                 (mkRt (heap rt) (prx rt ++ [mkPrx l l [] cb])
                    (JsMap.set ref_eqb (RPrx k) (RObj l)
                       (JsMap.set ref_eqb (RObj l) (RPrx k) (cache rt))) (calls rt)) =
               VRef (RObj l)).
  { unfold unproxyfy. simpl. rewrite get_set_same_ref. reflexivity. }
  split; [exact Hu | split; [reflexivity | split; [|split; [|split]]]].
  - simpl. unfold k. rewrite nth_error_app2, Nat.sub_diag; [reflexivity | lia].
  - intros rt' ks p x vis lf ps Hk Hu' Hw Hps Hnd Hc _.
    apply NoDup_cons_iff in Hnd. destruct Hnd as [Hl Hnd].
    destruct (assign_gen false ks p x k (mkPrx l l [] cb) rt' vis lf ps Hk Hw Hps Hnd Hc)
      as (rt2 & cb2 & root2 & path2 & H1 & _ & _ & H3 & H4).
    exists rt2. split; [exact H1|].
    assert (Hu2 : unproxyfy (VRef (RPrx k)) rt2 = VRef (RObj l)).
    { rewrite <- Hu'. unfold unproxyfy. rewrite H4; [reflexivity|].
      apply nth_error_Some. congruence. }
    rewrite Hu2, read_chain_app.
    rewrite (read_chain_plain ks l vis lf rt2).
    + simpl. unfold prop. rewrite H3.
      rewrite (nth_error_replace_nth_same lf _ ps (heap rt') Hps). simpl.
      rewrite NetworkFacts.get_set_same. reflexivity.
    + rewrite H3. apply walk_replace; [exact Hw|].
      apply NoDup_cons; assumption.
  - intros v rt' Hv. destruct v; try reflexivity. exfalso. apply (Hv r). reflexivity.
  - intros r rt' Hr. unfold unproxyfy. rewrite Hr. reflexivity.
Qed.

(** Round trip on [proxyfy({a:{b:1}}, 7)], and the second write
    [proxy.a.b = 3], through the cached inner proxy, is read back from
    [unproxyfy(proxy).a.b]. *)
Lemma unproxyfy_roundtrip_witness :
  unproxyfy (VRef (RPrx 0)) (snd (proxyfy 0 7 None [] ab_rt)) = VRef (RObj 0) /\
  exists rt2, assign (VRef (RPrx 0)) ["a"] "b" (VNum 3) ab_written = Some rt2 /\
    read_chain (unproxyfy (VRef (RPrx 0)) rt2) ["a"; "b"] rt2 = Some (VNum 3, rt2).
Proof.
  destruct (unproxyfy_roundtrip ab_rt 0 7 0 (snd (proxyfy 0 7 None [] ab_rt)) eq_refl)
    as (H & _ & _ & Hm & _).
  split; [exact H|].
  exact (Hm ab_written ["a"] "b" (VNum 3) [1] 1 [("b", VNum 2)] eq_refl eq_refl eq_refl eq_refl
           (NoDup_cons 0 (fun H : In 0 [1] => match H with
                                                | or_introl E => O_S 0 (eq_sym E)
                                                | or_intror F => match F with end
                                                end)
              (NoDup_cons 1 (fun H : In 1 [] => H) (NoDup_nil nat)))
           (ab_written_wrap false) ltac:(discriminate)).
Defined.


Lemma nth_error_app_prefix {A : Type} (l : list A) (x y : A) (k : nat) :
  nth_error l k = Some y -> nth_error (l ++ [x]) k = Some y.
Proof.
  intros H. rewrite nth_error_app1; [exact H|]. apply nth_error_Some. congruence.
Qed.

(** X21: Reading the same object-valued property through a proxy twice gives the
    same proxy: the first read may create and cache a proxy for the nested
    object, the second read finds it in [proxyCache] and changes nothing.
    Neither read touches the objects or calls [onchange]. *)
Theorem proxy_get_cached :
  forall (k : nat) (pr : PrxRec) (p : string) (l : nat) (rt : Rt) (v : Val) (rt' : Rt),
  nth_error rt.(prx) k = Some pr ->
  prop rt pr.(ptarget) p = Some (VRef (RObj l)) ->
  get_val (VRef (RPrx k)) p rt = Some (v, rt') ->
  get_val (VRef (RPrx k)) p rt' = Some (v, rt') /\
  rt'.(heap) = rt.(heap) /\ rt'.(calls) = rt.(calls).
Proof.
  intros k pr p l rt v rt' Hk Hp Hg. simpl in Hg. rewrite Hk, Hp in Hg.
  destruct (JsMap.get ref_eqb (RObj l) (cache rt)) as [r'|] eqn:Ec.
  - injection Hg as <- <-. split; [|auto]. simpl. rewrite Hk, Hp, Ec. reflexivity.
  - unfold proxyfy in Hg. simpl in Hg. injection Hg as <- <-.
    split; [|auto]. simpl.
    rewrite (nth_error_app_prefix _ _ _ _ Hk).
    unfold prop in *. simpl. destruct (nth_error (heap rt) (ptarget pr)); [|discriminate].
    injection Hp as Hp. rewrite Hp.
    rewrite get_set_other_ref by reflexivity. rewrite get_set_same_ref. reflexivity.
Qed.

Definition nested_rt : Rt :=
  mkRt [[("a", VRef (RObj 1))]; [("b", VNum 1)]] [mkPrx 0 0 [] 9] [(RObj 0, RPrx 0); (RPrx 0, RObj 0)] [].

Lemma proxy_get_cached_witness :
  exists v rt', get_val (VRef (RPrx 0)) "a" nested_rt = Some (v, rt') /\
    get_val (VRef (RPrx 0)) "a" rt' = Some (v, rt').
Proof.
  exists (VRef (RPrx 1)), (snd (proxyfy 1 9 (Some 0) ["a"] nested_rt)).
  assert (Hg : get_val (VRef (RPrx 0)) "a" nested_rt =
               Some (VRef (RPrx 1), snd (proxyfy 1 9 (Some 0) ["a"] nested_rt))) by reflexivity.
  split; [exact Hg|].
  exact (proj1 (proxy_get_cached 0 (mkPrx 0 0 [] 9) "a" 1 nested_rt _ _ eq_refl eq_refl Hg)).
Defined.


End ProxyFacts.

(** * CHANGESYNC on the heap: the walk of [#data] over the stored proxy tree *)
Module HostSync.
Import Network Proxy.












End HostSync.
